(** * line-to-email: a relay between a LINE group and e-mail

    A shallow embedding of [src/index.ts].  The program has two legs:

    - [POST /webhook]: every LINE webhook event of a delivery is turned into
      one e-mail ([textEventHandler], [getContent]);
    - [POST /email]: a multipart form (an inbound e-mail) is turned into a
      sequence of LINE messages pushed to a fixed group.

    The collaborators (LINE client, SendGrid, Cloud Storage, [file-type],
    [music-metadata], [mime-types], [uuid]) are not part of the repository.
    They appear as the fields of a [World]: what each call answers, as a
    function of its arguments.  Every call the program makes is appended to
    a trace, so that statements about what is done, in which order, and what
    is not done, are statements about that trace. *)

From Stdlib Require Import String Ascii List ZArith NArith Bool Lia Floats.
From Stdlib Require Import Permutation.
From Stdlib.Strings Require Import Byte.
Import ListNotations.
Local Open Scope string_scope.

(** ** JavaScript values and control flow *)

Module Js.

(** The line terminator of a template literal that spans several source
    lines (always U+000A, whatever the file's line ends). *)
Definition LF : string := String (ascii_of_nat 10) EmptyString.

(** [ToBoolean] on a string: only the empty string is falsy. *)
Definition truthy (s : string) : bool := negb (s =? "").

(** [x || d] where [x] is a string, or [null], [undefined] or [false]
    ([None]). *)
Definition or_else (x : option string) (d : string) : string :=
  match x with
  | Some s => if truthy s then s else d
  | None => d
  end.

(** [`${x}`] where [x] is a string or [undefined]. *)
Definition interpolate (x : option string) : string :=
  match x with
  | Some s => s
  | None => "undefined"
  end.

(** [ToBoolean] on a number or [undefined]: [undefined], [0], [-0] and
    [NaN] are falsy. *)
Definition truthy_number (x : option float) : bool :=
  match x with
  | Some d => negb (PrimFloat.is_zero d || PrimFloat.is_nan d)
  | None => false
  end.

(** What the collaborators reject with. *)
Inductive rejection : Type :=
| ApiError (reason : string).

(** What a piece of the program can throw: the rejection of an awaited
    call, or one of the two errors of a response write. *)
Inductive error : Type :=
| Rejected (r : rejection)
| ERR_HTTP_HEADERS_SENT
| TypeError_circular_structure.

Inductive outcome (A : Type) : Type :=
| Ok (a : A)
| Throw (e : error).
Arguments Ok {A} a.
Arguments Throw {A} e.

(** How a statement of a [switch] body completes. *)
Inductive completion : Type :=
| Normal
| Break
| Return.

Inductive label : Type :=
| Case (s : string)
| Default.

(** Whether a clause is selected by the discriminant [d], a string or
    [undefined] ([None]): strict equality with the label of a [case]. *)
Definition selects (l : label) (d : option string) : bool :=
  match l, d with
  | Case s, Some t => s =? t
  | _, _ => false
  end.

Definition is_default (l : label) : bool :=
  match l with
  | Default => true
  | Case _ => false
  end.

(** The clauses from the first one that [p] accepts, that one included. *)
Fixpoint from_first {B : Type} (p : label -> bool) (cs : list (label * B))
  : option (list (label * B)) :=
  match cs with
  | [] => None
  | c :: rest => if p (fst c) then Some cs else from_first p rest
  end.

(** Where a [switch] on [d] starts executing: at the first [case] whose
    label is [d]; at [default] when there is none; nowhere without a
    [default]. *)
Definition entry {B : Type} (d : option string) (cs : list (label * B))
  : list (label * B) :=
  match from_first (fun l => selects l d) cs with
  | Some suffix => suffix
  | None =>
      match from_first is_default cs with
      | Some suffix => suffix
      | None => []
      end
  end.

End Js.

Export Js.

(** ** Data *)

Definition Buffer : Type := list byte.

Module Base64.

Definition alphabet : string :=
  "ABCDEFGHIJKLMNOPQRSTUVWXYZabcdefghijklmnopqrstuvwxyz0123456789+/".

Definition pad : ascii := "="%char.

(** The digit of a six-bit value. *)
Definition digit (n : N) : ascii :=
  match String.get (N.to_nat n) alphabet with
  | Some c => c
  | None => pad
  end.

(** The four six-bit values of three octets. *)
Definition sextets (a b c : N) : N * N * N * N :=
  (N.shiftr a 2,
   N.lor (N.shiftl (N.land a 3) 4) (N.shiftr b 4),
   N.lor (N.shiftl (N.land b 15) 2) (N.shiftr c 6),
   N.land c 63).

(** [buffer.toString("base64")]: three bytes give four digits; a last
    group of one or two bytes is completed with zero bits, and its digits
    with [=]. *)
Fixpoint encode (bs : Buffer) : string :=
  match bs with
  | [] => ""
  | [a] =>
      let '(s1, s2, _, _) := sextets (Byte.to_N a) 0 0 in
      String (digit s1) (String (digit s2) (String pad (String pad "")))
  | [a; b] =>
      let '(s1, s2, s3, _) := sextets (Byte.to_N a) (Byte.to_N b) 0 in
      String (digit s1) (String (digit s2) (String (digit s3) (String pad "")))
  | a :: b :: c :: rest =>
      let '(s1, s2, s3, s4) :=
        sextets (Byte.to_N a) (Byte.to_N b) (Byte.to_N c) in
      String (digit s1)
        (String (digit s2) (String (digit s3) (String (digit s4) (encode rest))))
  end.

(** The value of a digit: its place in the alphabet. *)
Fixpoint place (n : N) (c : ascii) (s : string) : option N :=
  match s with
  | EmptyString => None
  | String x rest => if Ascii.eqb x c then Some n else place (N.succ n) c rest
  end.

Definition value (c : ascii) : option N := place 0 c alphabet.

(** The three octets of four six-bit values. *)
Definition octets (s1 s2 s3 s4 : N) : N * N * N :=
  (N.lor (N.shiftl s1 2) (N.shiftr s2 4),
   N.lor (N.shiftl (N.land s2 15) 4) (N.shiftr s3 2),
   N.lor (N.shiftl (N.land s3 3) 6) s4).

Definition octet (n : N) : byte :=
  match Byte.of_N n with
  | Some b => b
  | None => x00
  end.

(** The bytes that a padded base64 text stands for. *)
Fixpoint decode (s : string) : option Buffer :=
  match s with
  | EmptyString => Some []
  | String c1 (String c2 (String c3 (String c4 rest))) =>
      match value c1, value c2 with
      | Some s1, Some s2 =>
          if Ascii.eqb c3 pad then
            if Ascii.eqb c4 pad && (rest =? "") then
              let '(a, _, _) := octets s1 s2 0 0 in Some [octet a]
            else None
          else
            match value c3 with
            | Some s3 =>
                if Ascii.eqb c4 pad then
                  if rest =? "" then
                    let '(a, b, _) := octets s1 s2 s3 0 in
                    Some [octet a; octet b]
                  else None
                else
                  match value c4 with
                  | Some s4 =>
                      let '(a, b, c) := octets s1 s2 s3 s4 in
                      option_map (fun t => octet a :: octet b :: octet c :: t)
                        (decode rest)
                  | None => None
                  end
            | None => None
            end
      | _, _ => None
      end
  | _ => None
  end.

(** [p] holds of every number below [n]. *)
Fixpoint below (n : nat) (p : N -> bool) : bool :=
  match n with
  | O => true
  | S k => p (N.of_nat k) && below k p
  end.

(** Whether a number is a six-bit value whose digit has that value and is
    not the padding. *)
Definition good (n : N) : bool :=
  (n <? 64)%N &&
  match value (digit n) with
  | Some m => (m =? n)%N
  | None => false
  end && negb (Ascii.eqb (digit n) pad).

(** What is checked of three octets, two at a time. *)
Definition check_ab (a b : N) : bool :=
  let '(s1, s2, _, _) := sextets a b 0 in
  good s1 && good s2 &&
  (N.lor (N.shiftl s1 2) (N.shiftr s2 4) =? a)%N &&
  (N.land s2 15 =? N.shiftr b 4)%N &&
  (N.lor (N.shiftl (N.shiftr b 4) 4) (N.land b 15) =? b)%N.

Definition check_bc (b c : N) : bool :=
  let '(_, _, s3, s4) := sextets 0 b c in
  good s3 && good s4 &&
  (N.shiftr s3 2 =? N.land b 15)%N &&
  (N.lor (N.shiftl (N.land s3 3) 6) s4 =? c)%N.

End Base64.

(** The webhook side: what LINE delivers. *)
Module Line.

Record EventSource : Type := { userId : option string }.

(** [event.message]: [type] is the discriminant ([text], [image], [video],
    [audio], [file], [sticker], [location], ...), [id] the content id and
    [text] the body of a text message. *)
Record EventMessage : Type :=
  { type : string; id : string; text : string }.

Inductive WebhookEvent : Type :=
| MessageEvent (source : EventSource) (message : EventMessage)
| OtherEvent (type : string).

Record Profile : Type := { displayName : string }.

(** The messages the program pushes. *)
Inductive Message : Type :=
| TextMessage (text : string)
| ImageMessage (originalContentUrl previewImageUrl : string)
| VideoMessage (originalContentUrl previewImageUrl : string)
| AudioMessage (originalContentUrl : string) (duration : float).

End Line.

(** The e-mail side: what is handed to [sgMail.send]. *)
Module Mail.

Record Attachment : Type :=
  { content : string; type : string; filename : string }.

Record Address : Type := { email : string; name : string }.

Record MailData : Type :=
  { to : list string;
    from : Address;
    subject : string;
    text : string;
    attachments : option (list Attachment) }.

Definition set_text (msg : MailData) (t : string) : MailData :=
  {| to := to msg; from := from msg; subject := subject msg;
     text := t; attachments := attachments msg |}.

Definition set_attachments (msg : MailData) (a : list Attachment) : MailData :=
  {| to := to msg; from := from msg; subject := subject msg;
     text := text msg; attachments := Some a |}.

End Mail.

(** The form side: what multer hands to the [/email] handler. *)
Module Form.

Record File : Type := { buffer : Buffer; originalname : string }.

(** A request as [upload.any()] hands it to the handler when it is
    multipart: [req.body] is an object, of which [req.body.from] and the
    like are [undefined] when the field is missing, and [req.files] is an
    array, empty when no file was sent.  The handler tests [req.files]
    (line 223), so the field is optional here as it is there.  A request
    that is not multipart has neither [req.body] nor [req.files]: reading
    [req.body.from] (line 216) then throws before any call is made, and
    such a request is not a [Request]. *)
Record Request : Type :=
  { from : option string;
    subject : option string;
    text : option string;
    files : option (list File) }.

End Form.

(** ** The HTTP response object

    [res.status(c)] sets the status code and answers [res];
    [res.json(v)] serialises [v], then sends it.  Serialising fails on a
    value that holds the response object itself (it is circular); sending
    fails once a response has been sent. *)

Module Http.

(** What a callback of [events.map] answers: [undefined], or the response
    object that [res.status(500).json(...)] answers. *)
Inductive slot : Type :=
| Undefined
| TheResponse.

Inductive body : Type :=
| Connected                          (* {status: "success", message: ...} *)
| StatusError                        (* {status: "error"} *)
| StatusSuccess (results : list slot) (* {status: "success", results} *)
| Empty.                             (* json() *)

Record Response : Type :=
  { statusCode : Z; sent : option (Z * body) }.

Definition fresh : Response := {| statusCode := 200; sent := None |}.

Definition headersSent (r : Response) : bool :=
  match sent r with
  | Some _ => true
  | None => false
  end.

Definition is_response (s : slot) : bool :=
  match s with
  | TheResponse => true
  | Undefined => false
  end.

Definition serialisable (b : body) : bool :=
  match b with
  | StatusSuccess results => negb (existsb is_response results)
  | _ => true
  end.

End Http.

(** ** The world and the trace *)

Definition answer (A : Type) : Type := (rejection + A)%type.

(** What [fetch] resolves to: the [Content-Type] header, and what
    [res.buffer()] gives. *)
Record FetchResponse : Type :=
  { content_type : option string; body_buffer : answer Buffer }.

Record World : Type :=
  { (* configuration, read from the environment at start-up (lines 31-33)
       and at each fetch (line 59) *)
    toEmailArray : list string;
    groupId : string;
    CHANNEL_ACCESS_TOKEN : option string;
    (* the LINE client *)
    getProfile : string -> answer Line.Profile;
    pushMessage : string -> Line.Message -> answer unit;
    (* node-fetch, by URL and [Authorization] header *)
    fetch : string -> string -> answer FetchResponse;
    (* mime-types: [mime.extension], [false] as [None] *)
    mime_extension : string -> option string;
    (* SendGrid *)
    sgMail_send : Mail.MailData -> answer unit;
    (* file-type: [FileType.fromBuffer(file)?.mime] *)
    fromBuffer : Buffer -> option string;
    (* uuid: the n-th identifier that [uuidv4()] draws *)
    uuidv4 : nat -> string;
    (* Cloud Storage, by object name *)
    save : string -> Buffer -> answer unit;
    makePublic : string -> answer unit;
    publicUrl : string -> string;
    (* music-metadata: [metadata.format.duration] of [mm.parseBuffer] *)
    parseBuffer : Buffer -> answer (option float) }.

(** The calls to the collaborators. *)
Inductive call : Type :=
| GetProfile (userId : string)
| Fetch (url authorization : string)
| ReadBody (url : string)
| Send (msg : Mail.MailData)
| Save (name : string) (data : Buffer)
| MakePublic (name : string)
| ParseBuffer (data : Buffer)
| PushMessage (to : string) (message : Line.Message).

Record State : Type :=
  { trace : list call;        (* the calls made so far, oldest first *)
    drawn : nat;              (* how many identifiers [uuidv4] has drawn *)
    res : Http.Response }.

Definition initial : State :=
  {| trace := []; drawn := 0; res := Http.fresh |}.

(** ** Effects: state and exceptions *)

Definition M (A : Type) : Type := State -> outcome A * State.

Definition ret {A : Type} (a : A) : M A := fun s => (Ok a, s).

Definition bind {A B : Type} (m : M A) (k : A -> M B) : M B :=
  fun s =>
    match m s with
    | (Ok a, s') => k a s'
    | (Throw e, s') => (Throw e, s')
    end.

Definition try_catch {A : Type} (m : M A) (handler : error -> M A) : M A :=
  fun s =>
    match m s with
    | (Ok a, s') => (Ok a, s')
    | (Throw e, s') => handler e s'
    end.

Declare Scope js_scope.
Delimit Scope js_scope with js.
Notation "x <- m ;; k" := (bind m (fun x => k))
  (at level 61, m at next level, right associativity) : js_scope.
Notation "m ;; k" := (bind m (fun _ => k))
  (at level 61, right associativity) : js_scope.
Local Open Scope js_scope.

(** The state once the calls [cs] have been made. *)
Definition logged (s : State) (cs : list call) : State :=
  {| trace := trace s ++ cs; drawn := drawn s; res := res s |}.

(** Make a call: it enters the trace, and the awaited answer is either a
    value or a rejection, which [await] throws. *)
Definition await {A : Type} (c : call) (a : answer A) : M A :=
  fun s =>
    match a with
    | inr v => (Ok v, logged s [c])
    | inl r => (Throw (Rejected r), logged s [c])
    end.

(** The state once an identifier has been drawn. *)
Definition drew (s : State) : State :=
  {| trace := trace s; drawn := S (drawn s); res := res s |}.

(** [uuidv4()] *)
Definition draw_uuid (w : World) : M string :=
  fun s => (Ok (uuidv4 w (drawn s)), drew s).

(** [res.status(code)] *)
Definition status (code : Z) : M unit :=
  fun s =>
    (Ok tt,
     {| trace := trace s; drawn := drawn s;
        res := {| Http.statusCode := code; Http.sent := Http.sent (res s) |} |}).

(** [res.json(b)], which answers [res] *)
Definition json (b : Http.body) : M Http.slot :=
  fun s =>
    if negb (Http.serialisable b) then (Throw TypeError_circular_structure, s)
    else if Http.headersSent (res s) then (Throw ERR_HTTP_HEADERS_SENT, s)
    else
      (Ok Http.TheResponse,
       {| trace := trace s; drawn := drawn s;
          res := {| Http.statusCode := Http.statusCode (res s);
                    Http.sent := Some (Http.statusCode (res s), b) |} |}).

(** ** [switch] with fall-through

    A clause body works on the variable the [switch] updates ([msg] in the
    webhook leg, [messageArray] in the form leg) and says how it completes.
    Execution starts at [entry] and runs the bodies in source order until
    one of them does not complete normally. *)

Definition stmt (V : Type) : Type := V -> M (completion * V).

Definition skip {V : Type} : stmt V := fun v => ret (Normal, v).

Fixpoint run_clauses {V : Type} (cs : list (label * stmt V)) (v : V)
  : M (completion * V) :=
  match cs with
  | [] => ret (Normal, v)
  | c :: rest =>
      r <- snd c v ;;
      match fst r with
      | Normal => run_clauses rest (snd r)
      | _ => ret r
      end
  end.

Definition switch {V : Type} (d : option string) (cs : list (label * stmt V))
  : stmt V :=
  run_clauses (entry d cs).

(** ** The webhook leg: LINE to e-mail *)

(** What [getContent] answers (lines 68-72). *)
Record Content : Type :=
  { fileType : string; fileExtname : string; file : Buffer }.

(** [getContent] (lines 54-73): the content of a message, fetched from the
    LINE data API, with the content type of the response and the file
    extension that [mime-types] gives for it. *)
Definition getContent (w : World) (eventMessageId : string) : M Content :=
  let url :=
    "https://api-data.line.me/v2/bot/message/" ++ eventMessageId ++ "/content" in
  let authorization := "Bearer " ++ interpolate (CHANNEL_ACCESS_TOKEN w) in
  r <- await (Fetch url authorization) (fetch w url authorization) ;;
  let fileType := or_else (content_type r) "" in
  let fileExtname := or_else (mime_extension w fileType) "" in
  file <- await (ReadBody url) (body_buffer r) ;;
  ret {| fileType := fileType; fileExtname := fileExtname; file := file |}.

(** [msg.text = `${msg.text}\n\n${line}`; break;] *)
Definition append_line (line : string) : stmt Mail.MailData :=
  fun msg =>
    ret (Break, Mail.set_text msg (Mail.text msg ++ LF ++ LF ++ line)).

(** The clauses of the [switch] on [event.message.type] (lines 97-151), in
    source order: the four media kinds have two clauses each, the first
    above the shared block that builds the attachment. *)
Definition message_clauses (w : World) (message : Line.EventMessage)
  : list (label * stmt Mail.MailData) :=
  [ (Case "text", append_line (Line.text message));
    (Case "image", skip);
    (Case "video", skip);
    (Case "audio", skip);
    (Case "file",
      fun msg =>
        c <- getContent w (Line.id message) ;;
        ret (Normal,
             Mail.set_attachments msg
               [ {| Mail.content := Base64.encode (file c);
                    Mail.type := fileType c;
                    Mail.filename := fileExtname c |} ]));
    (Case "image", append_line "画像メッセージ");
    (Case "video", append_line "動画メッセージ");
    (Case "audio", append_line "音声メッセージ");
    (Case "file", append_line "ファイルメッセージ");
    (Case "sticker", append_line "スタンプ");
    (Default, fun msg => ret (Return, msg)) ].

(** The first line of the body (lines 90-94): who the message is from.
    The test is the truthiness of [event.source.userId]. *)
Definition sender (w : World) (source : Line.EventSource) : M string :=
  match Line.userId source with
  | Some uid =>
      if truthy uid then
        p <- await (GetProfile uid) (getProfile w uid) ;;
        ret (Line.displayName p ++ "さん")
      else ret "ユーザー"
  | None => ret "ユーザー"
  end.

(** [textEventHandler] (lines 76-156). *)
Definition textEventHandler (w : World) (event : Line.WebhookEvent) : M unit :=
  match event with
  | Line.OtherEvent _ => ret tt
  | Line.MessageEvent source message =>
      who <- sender w source ;;
      let msg :=
        {| Mail.to := toEmailArray w;
           Mail.from := {| Mail.email := "line@line-to-email.futa.io";
                           Mail.name := "line-to-email" |};
           Mail.subject := "新着メッセージ";
           Mail.text := who ++ "からのメッセージ";
           Mail.attachments := None |} in
      r <- switch (Some (Line.type message)) (message_clauses w message) msg ;;
      match fst r with
      | Return => ret tt
      | _ => await (Send (snd r)) (sgMail_send w (snd r))
      end
  end.

(** *** [GET /] (lines 164-172) *)

Definition root : M Http.slot := status 200 ;; json Http.Connected.

(** *** [POST /webhook] (lines 175-205)

    The callback of [events.map]: the handler's error is caught and answered
    with a response write. *)
Definition on_event (w : World) (event : Line.WebhookEvent) : M Http.slot :=
  try_catch
    (textEventHandler w event ;; ret Http.Undefined)
    (fun _ => status 500 ;; json Http.StatusError).

(** [events.map] starts every callback, and none of them is cancelled when
    another one rejects.  The callbacks share nothing but [res], and the
    collaborators answer by argument, so running them one after the other,
    in array order, gives every outcome and every call of a concurrent run;
    only the relative order of the calls of different events is a choice
    of the model (the callbacks of a real run take turns at each [await]),
    so what is stated of the calls of a batch is stated up to their
    order. *)
Fixpoint settle_all {A : Type} (tasks : list (M A)) (s : State)
  : list (outcome A) * State :=
  match tasks with
  | [] => ([], s)
  | t :: rest =>
      let (o, s1) := t s in
      let (os, s2) := settle_all rest s1 in
      (o :: os, s2)
  end.

(** What [Promise.all] settles to: every value, or the first rejection. *)
Fixpoint gather {A : Type} (os : list (outcome A)) : outcome (list A) :=
  match os with
  | [] => Ok []
  | Throw e :: _ => Throw e
  | Ok a :: rest =>
      match gather rest with
      | Ok l => Ok (a :: l)
      | Throw e => Throw e
      end
  end.

Definition promise_all {A : Type} (tasks : list (M A)) : M (list A) :=
  fun s => let (os, s') := settle_all tasks s in (gather os, s').

Definition webhook (w : World) (events : list Line.WebhookEvent) : M Http.slot :=
  results <- promise_all (map (on_event w) events) ;;
  status 200 ;;
  json (Http.StatusSuccess results).

(** ** The form leg: e-mail to LINE

    [POST /email] (lines 207-281). *)

Definition push (m : Line.Message) : stmt (list Line.Message) :=
  fun messageArray => ret (Break, (messageArray ++ [m])%list).

(** [metadata.format.duration ? metadata.format.duration * 1000 : 0], the
    duration being a number of seconds, or [undefined]. *)
Definition duration (metadata_format_duration : option float) : float :=
  match metadata_format_duration with
  | Some seconds =>
      if truthy_number metadata_format_duration
      then PrimFloat.mul seconds 1000
      else 0%float
  | None => 0%float
  end.

(** The clauses of the [switch] on the sniffed [fileType] (lines 234-269),
    in source order. *)
Definition file_clauses (w : World) (file : Buffer) (fileUrl : string)
  : list (label * stmt (list Line.Message)) :=
  [ (Case "image/jpeg", skip);
    (Case "image/png", push (Line.ImageMessage fileUrl fileUrl));
    (Case "video/mp4", skip);
    (Case "video/x-m4v", push (Line.VideoMessage fileUrl fileUrl));
    (Case "audio/mp4", skip);
    (Case "audio/x-m4a",
      fun messageArray =>
        metadata_format_duration <-
          await (ParseBuffer file) (parseBuffer w file) ;;
        push (Line.AudioMessage fileUrl (duration metadata_format_duration))
          messageArray);
    (Default, fun messageArray => ret (Break, messageArray)) ].

(** One turn of the loop over [req.files] (lines 225-269). *)
Definition file_step (w : World) (fileObject : Form.File)
  (messageArray : list Line.Message) : M (list Line.Message) :=
  let file := Form.buffer fileObject in
  let fileType := fromBuffer w file in
  let fileName := Form.originalname fileObject in
  u <- draw_uuid w ;;
  let gcsFile := "line-to-email/" ++ u ++ "-" ++ fileName in
  await (Save gcsFile file) (save w gcsFile file) ;;
  await (MakePublic gcsFile) (makePublic w gcsFile) ;;
  let fileUrl := publicUrl w gcsFile in
  r <- switch fileType (file_clauses w file fileUrl) messageArray ;;
  ret (snd r).

Fixpoint for_files (w : World) (fs : list Form.File)
  (messageArray : list Line.Message) : M (list Line.Message) :=
  match fs with
  | [] => ret messageArray
  | fileObject :: rest =>
      messageArray' <- file_step w fileObject messageArray ;;
      for_files w rest messageArray'
  end.

Fixpoint push_all (w : World) (ms : list Line.Message) : M unit :=
  match ms with
  | [] => ret tt
  | message :: rest =>
      await (PushMessage (groupId w) message)
            (pushMessage w (groupId w) message) ;;
      push_all w rest
  end.

Definition first_message (req : Form.Request) : Line.Message :=
  Line.TextMessage
    ("From: " ++ interpolate (Form.from req) ++ LF ++
     "Subject: " ++ interpolate (Form.subject req) ++ LF ++ LF ++
     interpolate (Form.text req)).

Definition email (w : World) (req : Form.Request) : M Http.slot :=
  let messageArray := [first_message req] in
  messageArray <-
    match Form.files req with
    | Some fs => for_files w fs messageArray
    | None => ret messageArray
    end ;;
  push_all w messageArray ;;
  status 200 ;;
  json Http.Empty.

(** ** The configuration: the recipients (lines 32-33)

    [TOEMAIL] is a list of addresses separated by commas.  Strings hold
    UTF-8, so the white space that [/\s/] matches is one, two or three
    bytes long. *)

Module Config.

(** U+0009 to U+000D and U+0020 *)
Definition white1 (c : ascii) : bool :=
  let n := nat_of_ascii c in
  (((9 <=? n) && (n <=? 13)) || (n =? 32))%nat.

(** U+00A0 *)
Definition white2 (c1 c2 : ascii) : bool :=
  ((nat_of_ascii c1 =? 194) && (nat_of_ascii c2 =? 160))%nat.

(** U+1680, U+2000 to U+200A, U+2028, U+2029, U+202F, U+205F, U+3000 and
    U+FEFF *)
Definition white3 (c1 c2 c3 : ascii) : bool :=
  let a := nat_of_ascii c1 in
  let b := nat_of_ascii c2 in
  let c := nat_of_ascii c3 in
  (((a =? 225) && (b =? 154) && (c =? 128)) ||
   ((a =? 226) && (b =? 128) &&
    (((128 <=? c) && (c <=? 138)) || (c =? 168) || (c =? 169) || (c =? 175))) ||
   ((a =? 226) && (b =? 129) && (c =? 159)) ||
   ((a =? 227) && (b =? 128) && (c =? 128)) ||
   ((a =? 239) && (b =? 187) && (c =? 191)))%nat.

(** [s.replace(/\s/g, "")] *)
Fixpoint replace_whitespace (s : string) : string :=
  match s with
  | EmptyString => EmptyString
  | String c1 rest =>
      if white1 c1 then replace_whitespace rest
      else
        match rest with
        | String c2 rest2 =>
            if white2 c1 c2 then replace_whitespace rest2
            else
              match rest2 with
              | String c3 rest3 =>
                  if white3 c1 c2 c3 then replace_whitespace rest3
                  else String c1 (replace_whitespace rest)
              | EmptyString => String c1 (replace_whitespace rest)
              end
        | EmptyString => String c1 EmptyString
        end
  end.

(** [s.split(sep)] for a separator of one character: the pieces between
    the separators, of which there is always at least one. *)
Fixpoint split (sep : ascii) (s : string) : list string :=
  match s with
  | EmptyString => [EmptyString]
  | String c rest =>
      if Ascii.eqb c sep then EmptyString :: split sep rest
      else
        match split sep rest with
        | piece :: pieces => String c piece :: pieces
        | [] => [String c EmptyString]
        end
  end.

(** [process.env.TOEMAIL || ""] *)
Definition toEmailString (TOEMAIL : option string) : string :=
  or_else TOEMAIL "".

Definition toEmailArray (TOEMAIL : option string) : list string :=
  split ","%char (replace_whitespace (toEmailString TOEMAIL)).

(** Whether a string holds ASCII characters only. *)
Definition ascii_only (s : string) : bool :=
  forallb (fun c => nat_of_ascii c <? 128)%nat (list_ascii_of_string s).

(** A string without its spaces, tabs and line ends. *)
Fixpoint remove_white1 (s : string) : string :=
  match s with
  | EmptyString => EmptyString
  | String c rest =>
      if white1 c then remove_white1 rest else String c (remove_white1 rest)
  end.

(** How many times a character occurs in a string. *)
Fixpoint occurrences (c : ascii) (s : string) : nat :=
  match s with
  | EmptyString => 0
  | String x rest => (if Ascii.eqb x c then 1 else 0) + occurrences c rest
  end.

(** Whether a string is free of commas and of the white space of one
    byte. *)
Fixpoint clean (s : string) : bool :=
  match s with
  | EmptyString => true
  | String c rest => negb (Ascii.eqb c ","%char) && negb (white1 c) && clean rest
  end.

End Config.

(** ** Vocabulary of the statements *)

(** The e-mail that [textEventHandler] builds, by its body and attachments;
    recipients, sender and subject are fixed. *)
Definition mail (w : World) (body : string)
  (attachments : option (list Mail.Attachment)) : Mail.MailData :=
  {| Mail.to := toEmailArray w;
     Mail.from := {| Mail.email := "line@line-to-email.futa.io";
                     Mail.name := "line-to-email" |};
     Mail.subject := "新着メッセージ";
     Mail.text := body;
     Mail.attachments := attachments |}.

(** A message event of a given kind. *)
Definition message_event (source : Line.EventSource) (kind i t : string)
  : Line.WebhookEvent :=
  Line.MessageEvent source {| Line.type := kind; Line.id := i; Line.text := t |}.

(** The kinds that have a [case] of their own in [textEventHandler]. *)
Definition handled_kinds : list string :=
  ["text"; "image"; "video"; "audio"; "file"; "sticker"].

(** The calls a computation makes when started in [s]. *)
Definition calls {A : Type} (m : M A) (s : State) : list call :=
  skipn (List.length (trace s)) (trace (snd (m s))).

Definition ends_with (s suffix : string) : Prop :=
  exists front, s = front ++ suffix.

(** What one event does on its own: how its handler completes, and the calls
    it makes. *)
Definition effect (w : World) (event : Line.WebhookEvent)
  : outcome unit * list call :=
  (fst (textEventHandler w event initial),
   trace (snd (textEventHandler w event initial))).

Definition fails (w : World) (event : Line.WebhookEvent) : bool :=
  match fst (effect w event) with
  | Throw _ => true
  | Ok _ => false
  end.

(** The name under which [file_step] stores a file, from the identifier
    drawn for it. *)
Definition object_name (uuid fileName : string) : string :=
  "line-to-email/" ++ uuid ++ "-" ++ fileName.

(** The content types that have a [case] in the [/email] handler. *)
Definition supported_types : list string :=
  ["image/jpeg"; "image/png"; "video/mp4"; "video/x-m4v";
   "audio/mp4"; "audio/x-m4a"].

Definition unsupported (fileType : option string) : Prop :=
  match fileType with
  | Some t => ~ In t supported_types
  | None => True
  end.

Definition is_supported (fileType : option string) : bool :=
  match fileType with
  | Some t => existsb (String.eqb t) supported_types
  | None => false
  end.

Definition is_audio (fileType : option string) : bool :=
  match fileType with
  | Some t => (t =? "audio/mp4") || (t =? "audio/x-m4a")
  | None => false
  end.

(** The [switch] of [file_step], on its own. *)
Definition classify (w : World) (file : Buffer) (fileUrl : string)
  (fileType : option string) (messageArray : list Line.Message)
  : M (list Line.Message) :=
  r <- switch fileType (file_clauses w file fileUrl) messageArray ;;
  ret (snd r).

(** The calls of one turn of the loop that goes through, for the file that
    gets the [n]-th identifier: the upload, the ACL change and, for an audio
    file, the parse. *)
Definition file_calls (w : World) (n : nat) (f : Form.File) : list call :=
  let name := object_name (uuidv4 w n) (Form.originalname f) in
  Save name (Form.buffer f) :: MakePublic name ::
  (if is_audio (fromBuffer w (Form.buffer f))
   then [ParseBuffer (Form.buffer f)] else []).

Fixpoint loop_calls (w : World) (n : nat) (fs : list Form.File) : list call :=
  match fs with
  | [] => []
  | f :: rest => (file_calls w n f ++ loop_calls w (S n) rest)%list
  end.

(** The messages that [push_all] hands to [client.pushMessage]: those up to
    the first one that is rejected, that one included. *)
Fixpoint attempted (w : World) (ms : list Line.Message) : list Line.Message :=
  match ms with
  | [] => []
  | m :: rest =>
      m :: match pushMessage w (groupId w) m with
           | inr _ => attempted w rest
           | inl _ => []
           end
  end.

(** A computation that only makes calls: how it completes and which calls it
    makes do not depend on the state it starts in. *)
Definition framed {A : Type} (m : M A) : Prop :=
  exists o cs, forall s, m s = (o, logged s cs).

(** The three ways [sender] can go. *)
Inductive sender_spec (w : World) (source : Line.EventSource) (s : State)
  : outcome string * State -> Prop :=
| sender_anonymous :
    Line.userId source = None \/ Line.userId source = Some "" ->
    sender_spec w source s (Ok "ユーザー", s)
| sender_named uid p :
    Line.userId source = Some uid -> truthy uid = true ->
    getProfile w uid = inr p ->
    sender_spec w source s
      (Ok (Line.displayName p ++ "さん"), logged s [GetProfile uid])
| sender_rejected uid r :
    Line.userId source = Some uid -> truthy uid = true ->
    getProfile w uid = inl r ->
    sender_spec w source s (Throw (Rejected r), logged s [GetProfile uid]).

(** Where the content of a message is fetched, and the header that goes
    with the request. *)
Definition content_url (eventMessageId : string) : string :=
  "https://api-data.line.me/v2/bot/message/" ++ eventMessageId ++ "/content".

Definition authorization (w : World) : string :=
  "Bearer " ++ interpolate (CHANNEL_ACCESS_TOKEN w).

(** What the content fetch of a message answers. *)
Definition fetch_content (w : World) (eventMessageId : string)
  : answer FetchResponse :=
  fetch w (content_url eventMessageId) (authorization w).

(** The three ways [getContent] can go. *)
Inductive getContent_spec (w : World) (i : string) (s : State)
  : outcome Content * State -> Prop :=
| content_unreachable r :
    fetch_content w i = inl r ->
    getContent_spec w i s
      (Throw (Rejected r), logged s [Fetch (content_url i) (authorization w)])
| content_unreadable f r :
    fetch_content w i = inr f -> body_buffer f = inl r ->
    getContent_spec w i s
      (Throw (Rejected r),
       logged s [Fetch (content_url i) (authorization w);
                 ReadBody (content_url i)])
| content_read f data :
    fetch_content w i = inr f -> body_buffer f = inr data ->
    getContent_spec w i s
      (Ok {| fileType := or_else (content_type f) "";
             fileExtname :=
               or_else (mime_extension w (or_else (content_type f) "")) "";
             file := data |},
       logged s [Fetch (content_url i) (authorization w);
                 ReadBody (content_url i)]).

(** The attachment made of a fetched content. *)
Definition attachment (c : Content) : Mail.Attachment :=
  {| Mail.content := Base64.encode (file c);
     Mail.type := fileType c;
     Mail.filename := fileExtname c |}.

(** The label line that the specification gives to each media kind. *)
Definition claimed_label (kind : string) : string :=
  if kind =? "image" then "画像メッセージ"
  else if kind =? "video" then "動画メッセージ"
  else if kind =? "audio" then "音声メッセージ"
  else "ファイルメッセージ".

(** What follows the greeting in [textEventHandler]: the [switch] and the
    send. *)
Definition dispatch (w : World) (message : Line.EventMessage)
  (msg : Mail.MailData) : M unit :=
  r <- switch (Some (Line.type message)) (message_clauses w message) msg ;;
  match fst r with
  | Return => ret tt
  | _ => await (Send (snd r)) (sgMail_send w (snd r))
  end.

(** The response write of the [catch] block. *)
Definition answer_500 : M Http.slot := status 500 ;; json Http.StatusError.

(** The name under which the next file is stored, in state [s]. *)
Definition stored_as (w : World) (s : State) (f : Form.File) : string :=
  object_name (uuidv4 w (drawn s)) (Form.originalname f).

(** Whether a call hands an e-mail to SendGrid. *)
Definition is_send (c : call) : bool :=
  match c with
  | Send _ => true
  | _ => false
  end.

(** Whether a call pushes a message to LINE. *)
Definition is_push (c : call) : bool :=
  match c with
  | PushMessage _ _ => true
  | _ => false
  end.

(** The test of line 80: whether an event is a message event. *)
Definition is_message (event : Line.WebhookEvent) : bool :=
  match event with
  | Line.MessageEvent _ _ => true
  | Line.OtherEvent _ => false
  end.

(** How many events of a batch throw. *)
Definition failures (w : World) (events : list Line.WebhookEvent) : nat :=
  List.length (filter (fails w) events).

(** What the turn of the loop appends for the file that gets the [n]-th
    identifier, when the turn goes through: one message for a file of a
    supported content type, linking to the stored object, and nothing for
    another file. *)
Definition element (w : World) (n : nat) (f : Form.File) : list Line.Message :=
  let fileUrl :=
    publicUrl w (object_name (uuidv4 w n) (Form.originalname f)) in
  match fromBuffer w (Form.buffer f) with
  | Some t =>
      if (t =? "image/jpeg") || (t =? "image/png")
      then [Line.ImageMessage fileUrl fileUrl]
      else if (t =? "video/mp4") || (t =? "video/x-m4v")
      then [Line.VideoMessage fileUrl fileUrl]
      else if (t =? "audio/mp4") || (t =? "audio/x-m4a")
      then match parseBuffer w (Form.buffer f) with
           | inr d => [Line.AudioMessage fileUrl (duration d)]
           | inl _ => []
           end
      else []
  | None => []
  end.

Fixpoint elements (w : World) (n : nat) (fs : list Form.File)
  : list Line.Message :=
  match fs with
  | [] => []
  | f :: rest => (element w n f ++ elements w (S n) rest)%list
  end.

(** ** A world to run the program in *)

Module Example.

(** A profile lookup that fails for one user, a content fetch that answers
    four bytes of video, a sniffer that knows JPEG and MPEG-4 audio, and
    collaborators that otherwise accept everything. *)
Definition world : World :=
  {| toEmailArray := ["desk@example.com"];
     groupId := "C4af4980629";
     getProfile := fun uid =>
       if uid =? "U-gone" then inl (ApiError "404 Not Found")
       else inr {| Line.displayName := "Hana" |};
     pushMessage := fun _ _ => inr tt;
     CHANNEL_ACCESS_TOKEN := Some "token";
     fetch := fun _ _ =>
       inr {| content_type := Some "video/mp4";
              body_buffer := inr [x00; x01; x02; xff] |};
     mime_extension := fun t => if t =? "video/mp4" then Some "mp4" else None;
     sgMail_send := fun _ => inr tt;
     fromBuffer := fun b =>
       match b with
       | xff :: xd8 :: _ => Some "image/jpeg"
       | x00 :: _ => Some "audio/mp4"
       | x25 :: _ => Some "application/pdf"
       | _ => None
       end;
     uuidv4 := fun n =>
       match n with
       | 0 => "9b1deb4d-3b7d-4bad-9bdd-2b0d7b3dcb6d"
       | _ => "1b9d6bcd-bbfd-4b2d-9b5d-ab8dfbbd4bed"
       end;
     save := fun _ _ => inr tt;
     makePublic := fun _ => inr tt;
     publicUrl := fun name => "https://storage.googleapis.com/relay/" ++ name;
     parseBuffer := fun _ => inr (Some 1.5%float) |}.

Definition known : Line.EventSource := {| Line.userId := Some "U-hana" |}.
Definition gone : Line.EventSource := {| Line.userId := Some "U-gone" |}.
Definition nobody : Line.EventSource := {| Line.userId := None |}.

Definition video : Line.WebhookEvent := message_event known "video" "42" "".
Definition hello : Line.WebhookEvent := message_event nobody "text" "43" "hello".
Definition lost : Line.WebhookEvent := message_event gone "text" "44" "lost".
Definition sticker : Line.WebhookEvent := message_event nobody "sticker" "45" "".

Definition location : Line.EventMessage :=
  {| Line.type := "location"; Line.id := "46"; Line.text := "" |}.

Definition jpeg : Form.File :=
  {| Form.buffer := [xff; xd8; xff; xe0]; Form.originalname := "photo.jpg" |}.
Definition m4a : Form.File :=
  {| Form.buffer := [x00; x00; x00; x20]; Form.originalname := "memo.m4a" |}.
Definition pdf : Form.File :=
  {| Form.buffer := [x25; x50; x44; x46]; Form.originalname := "bill.pdf" |}.

(** The e-mail that [video] gives. *)
Definition video_mail : Mail.MailData :=
  mail world ("Hanaさんからのメッセージ" ++ LF ++ LF ++ "画像メッセージ")
    (Some [ {| Mail.content := "AAEC/w=="; Mail.type := "video/mp4";
               Mail.filename := "mp4" |} ]).

Definition request (fs : list Form.File) : Form.Request :=
  {| Form.from := Some "hana@example.com";
     Form.subject := Some "Hi";
     Form.text := Some "See you.";
     Form.files := Some fs |}.

End Example.

(** ** A world in which things go wrong

    No access token is configured and the LINE data API does not answer;
    SendGrid refuses the e-mails; the bucket refuses the PDF file; LINE
    refuses image messages.  The rest is as in [Example.world]. *)

Module Outage.

Definition world : World :=
  {| toEmailArray := toEmailArray Example.world;
     groupId := groupId Example.world;
     CHANNEL_ACCESS_TOKEN := None;
     getProfile := getProfile Example.world;
     pushMessage := fun _ message =>
       match message with
       | Line.ImageMessage _ _ => inl (ApiError "400 Bad Request")
       | _ => inr tt
       end;
     fetch := fun _ _ => inl (ApiError "ETIMEDOUT");
     mime_extension := mime_extension Example.world;
     sgMail_send := fun _ => inl (ApiError "401 Unauthorized");
     fromBuffer := fromBuffer Example.world;
     uuidv4 := uuidv4 Example.world;
     save := fun _ data =>
       match data with
       | x25 :: _ => inl (ApiError "403 Forbidden")
       | _ => inr tt
       end;
     makePublic := makePublic Example.world;
     publicUrl := publicUrl Example.world;
     parseBuffer := parseBuffer Example.world |}.

(** The e-mail that [Example.hello] gives. *)
Definition hello_mail : Mail.MailData :=
  mail world ("ユーザーからのメッセージ" ++ LF ++ LF ++ "hello") None.

Definition follow : Line.WebhookEvent := Line.OtherEvent "follow".
Definition join : Line.WebhookEvent := Line.OtherEvent "join".

End Outage.

(** * Properties *)

(** ** Strings *)

Lemma append_assoc (a b c : string) : (a ++ b) ++ c = a ++ b ++ c.
Proof. induction a as [| x a IH]; simpl; [reflexivity | now rewrite IH]. Qed.

Lemma list_ascii_of_string_append (a b : string) :
  list_ascii_of_string (a ++ b) =
  (list_ascii_of_string a ++ list_ascii_of_string b)%list.
Proof. induction a as [| x a IH]; simpl; [reflexivity | now rewrite IH]. Qed.

(** A string that ends with [suffix], read backwards, starts with [suffix]
    read backwards. *)
Lemma ends_with_rev (s suffix : string) :
  ends_with s suffix ->
  exists front,
    rev (list_ascii_of_string s) =
    (rev (list_ascii_of_string suffix) ++ front)%list.
Proof.
  intros [front ->]. exists (rev (list_ascii_of_string front)).
  now rewrite list_ascii_of_string_append, rev_app_distr.
Qed.

Lemma truthy_empty (s : string) : truthy s = false <-> s = "".
Proof.
  unfold truthy. destruct (String.eqb_spec s ""); simpl; split; congruence.
Qed.

(** ** Base64 *)

Module Base64Facts.

Import Base64.

Lemma below_spec (n : nat) (p : N -> bool) :
  below n p = true -> forall k, (k < N.of_nat n)%N -> p k = true.
Proof.
  induction n as [| n IH]; simpl; intros H k Hk; [lia |].
  apply andb_prop in H. destruct H as [Hn Hrest].
  destruct (N.eq_dec k (N.of_nat n)) as [-> | Hne]; [exact Hn |].
  apply IH; [exact Hrest | lia].
Qed.

Lemma byte_below (x : byte) : (Byte.to_N x < N.of_nat 256)%N.
Proof. pose proof (Byte.to_N_bounded x). lia. Qed.

Lemma octet_to_N (x : byte) : octet (Byte.to_N x) = x.
Proof. unfold octet. now rewrite Byte.of_to_N. Qed.

Lemma good_spec (n : N) :
  good n = true ->
  value (digit n) = Some n /\ Ascii.eqb (digit n) pad = false.
Proof.
  unfold good. intros H.
  apply andb_prop in H. destruct H as [H Hp].
  apply andb_prop in H. destruct H as [_ Hv].
  destruct (value (digit n)) as [m |]; [| discriminate].
  apply N.eqb_eq in Hv. subst m. split; [reflexivity |].
  now apply negb_true_iff.
Qed.

Lemma checked_ab :
  below 256 (fun a => below 256 (fun b => check_ab a b)) = true.
Proof. vm_compute. reflexivity. Qed.

Lemma checked_bc :
  below 256 (fun b => below 256 (fun c => check_bc b c)) = true.
Proof. vm_compute. reflexivity. Qed.

Lemma check_ab_spec (a b : N) :
  (a < 256)%N -> (b < 256)%N ->
  let '(s1, s2, _, _) := sextets a b 0 in
  (value (digit s1) = Some s1 /\ Ascii.eqb (digit s1) pad = false) /\
  (value (digit s2) = Some s2 /\ Ascii.eqb (digit s2) pad = false) /\
  N.lor (N.shiftl s1 2) (N.shiftr s2 4) = a /\
  N.land s2 15 = N.shiftr b 4 /\
  N.lor (N.shiftl (N.shiftr b 4) 4) (N.land b 15) = b.
Proof.
  intros Ha Hb.
  pose proof (below_spec 256 _ (below_spec 256 _ checked_ab a Ha) b Hb) as H.
  unfold check_ab in H. unfold sextets in *.
  do 4 (apply andb_prop in H; destruct H as [H ?]).
  repeat match goal with E : (_ =? _)%N = true |- _ => apply N.eqb_eq in E end.
  repeat split; try assumption; now apply good_spec.
Qed.

Lemma check_bc_spec (b c : N) :
  (b < 256)%N -> (c < 256)%N ->
  let '(_, _, s3, s4) := sextets 0 b c in
  (value (digit s3) = Some s3 /\ Ascii.eqb (digit s3) pad = false) /\
  (value (digit s4) = Some s4 /\ Ascii.eqb (digit s4) pad = false) /\
  N.shiftr s3 2 = N.land b 15 /\
  N.lor (N.shiftl (N.land s3 3) 6) s4 = c.
Proof.
  intros Hb Hc.
  pose proof (below_spec 256 _ (below_spec 256 _ checked_bc b Hb) c Hc) as H.
  unfold check_bc in H. unfold sextets in *.
  do 3 (apply andb_prop in H; destruct H as [H ?]).
  repeat match goal with E : (_ =? _)%N = true |- _ => apply N.eqb_eq in E end.
  repeat split; try assumption; now apply good_spec.
Qed.

Lemma decode_three (a b c : N) (rest : string) :
  (a < 256)%N -> (b < 256)%N -> (c < 256)%N ->
  decode
    (let '(s1, s2, s3, s4) := sextets a b c in
     String (digit s1)
       (String (digit s2) (String (digit s3) (String (digit s4) rest)))) =
  option_map (fun t => octet a :: octet b :: octet c :: t) (decode rest).
Proof.
  intros Ha Hb Hc.
  pose proof (check_ab_spec a b Ha Hb) as Hab.
  pose proof (check_bc_spec b c Hb Hc) as Hbc.
  unfold sextets in *.
  destruct Hab as ((V1 & P1) & (V2 & P2) & E1 & E2 & E3).
  destruct Hbc as ((V3 & P3) & (V4 & P4) & E4 & E5).
  cbn [decode]. rewrite V1, V2, P3, V3, P4, V4. unfold octets.
  now rewrite E1, E2, E4, E3, E5.
Qed.

Lemma decode_two (a b : N) :
  (a < 256)%N -> (b < 256)%N ->
  decode
    (let '(s1, s2, s3, _) := sextets a b 0 in
     String (digit s1) (String (digit s2) (String (digit s3) (String pad "")))) =
  Some [octet a; octet b].
Proof.
  intros Ha Hb.
  pose proof (check_ab_spec a b Ha Hb) as Hab.
  pose proof (check_bc_spec b 0 Hb eq_refl) as Hbc.
  unfold sextets in *.
  destruct Hab as ((V1 & P1) & (V2 & P2) & E1 & E2 & E3).
  destruct Hbc as ((V3 & P3) & _ & E4 & _).
  cbn [decode]. rewrite V1, V2, P3, V3. unfold octets.
  now rewrite E1, E2, E4, E3.
Qed.

Lemma decode_one (a : N) :
  (a < 256)%N ->
  decode
    (let '(s1, s2, _, _) := sextets a 0 0 in
     String (digit s1) (String (digit s2) (String pad (String pad "")))) =
  Some [octet a].
Proof.
  intros Ha.
  pose proof (check_ab_spec a 0 Ha eq_refl) as Hab.
  unfold sextets in *.
  destruct Hab as ((V1 & P1) & (V2 & P2) & E1 & _).
  cbn [decode]. rewrite V1, V2. unfold octets.
  now rewrite E1.
Qed.

(** Induction on a list, three elements at a time. *)
Lemma by_threes {A : Type} (P : list A -> Prop) :
  P [] -> (forall a, P [a]) -> (forall a b, P [a; b]) ->
  (forall a b c l, P l -> P (a :: b :: c :: l)) ->
  forall l, P l.
Proof.
  intros H0 H1 H2 H3. fix IH 1.
  intros [| a [| b [| c l]]];
    [exact H0 | apply H1 | apply H2 | apply H3, IH].
Qed.

(** Decoding gives back the bytes that were encoded. *)
Theorem decode_encode (bs : Buffer) : decode (encode bs) = Some bs.
Proof.
  induction bs as [| x | x y | x y z rest IH] using by_threes.
  - reflexivity.
  - cbn [encode]. rewrite decode_one by apply byte_below.
    now rewrite octet_to_N.
  - cbn [encode]. rewrite decode_two by apply byte_below.
    now rewrite !octet_to_N.
  - cbn [encode]. rewrite decode_three by apply byte_below.
    rewrite IH. cbn [option_map]. now rewrite !octet_to_N.
Qed.
End Base64Facts.

(** The vectors of RFC 4648. *)
Example base64_vectors :
  Base64.encode [] = "" /\
  Base64.encode [x66] = "Zg==" /\
  Base64.encode [x66; x6f] = "Zm8=" /\
  Base64.encode [x66; x6f; x6f] = "Zm9v" /\
  Base64.encode [x66; x6f; x6f; x62] = "Zm9vYg==" /\
  Base64.encode [x66; x6f; x6f; x62; x61] = "Zm9vYmE=" /\
  Base64.encode [x66; x6f; x6f; x62; x61; x72] = "Zm9vYmFy".
Proof. repeat split. Qed.

(** ** The trace *)

Lemma logged_nil (s : State) : logged s [] = s.
Proof. destruct s; unfold logged; simpl. now rewrite app_nil_r. Qed.

Lemma logged_logged (s : State) (a b : list call) :
  logged (logged s a) b = logged s (a ++ b).
Proof. unfold logged; simpl. now rewrite app_assoc. Qed.

Lemma calls_trace {A : Type} (m : M A) (s : State) (cs : list call) :
  trace (snd (m s)) = (trace s ++ cs)%list -> calls m s = cs.
Proof.
  intros H. unfold calls. rewrite H.
  now rewrite skipn_app, skipn_all, Nat.sub_diag.
Qed.

Lemma calls_snd {A : Type} (m : M A) (s : State) (cs : list call) :
  snd (m s) = logged s cs -> calls m s = cs.
Proof. intros H. apply calls_trace. now rewrite H. Qed.

Lemma trace_logged (s : State) (cs : list call) :
  skipn (List.length (trace s)) (trace (logged s cs)) = cs.
Proof. simpl. now rewrite skipn_app, skipn_all, Nat.sub_diag. Qed.

Lemma await_run {A : Type} (c : call) (a : answer A) (s : State) :
  snd (await c a s) = logged s [c].
Proof. unfold await. now destruct a. Qed.

(** The state a computation ends in, as the start state and the calls. *)
Ltac new_calls :=
  cbv zeta; cbn [snd fst];
  rewrite ?await_run, ?logged_logged, ?trace_logged.

(** *** Computations that only make calls *)

Lemma framed_ret {A : Type} (a : A) : framed (ret a).
Proof. exists (Ok a), []. intros s. now rewrite logged_nil. Qed.

Lemma framed_await {A : Type} (c : call) (a : answer A) : framed (await c a).
Proof.
  destruct a as [r | v].
  - now exists (Throw (Rejected r)), [c].
  - now exists (Ok v), [c].
Qed.

Lemma framed_bind {A B : Type} (m : M A) (k : A -> M B) :
  framed m -> (forall a, framed (k a)) -> framed (bind m k).
Proof.
  intros (o & cs & Hm) Hk. destruct o as [a | e].
  - destruct (Hk a) as (o' & cs' & Hka).
    exists o', (cs ++ cs')%list. intros s. unfold bind.
    now rewrite Hm, Hka, logged_logged.
  - exists (Throw e), cs. intros s. unfold bind. now rewrite Hm.
Qed.

Create HintDb framed.
#[local] Hint Resolve framed_ret framed_await framed_bind : framed.

Lemma framed_run_clauses {V : Type} (cs : list (label * stmt V)) :
  Forall (fun c => forall v, framed (snd c v)) cs ->
  forall v, framed (run_clauses cs v).
Proof.
  induction 1 as [| c rest Hc _ IH]; intros v; simpl; auto with framed.
  apply framed_bind; [apply Hc |].
  intros [[ | | ] v']; simpl; auto with framed.
Qed.

Lemma Forall_from_first {B : Type} (P : label * B -> Prop) (p : label -> bool)
  (cs suffix : list (label * B)) :
  Forall P cs -> from_first p cs = Some suffix -> Forall P suffix.
Proof.
  induction 1 as [| c rest Hc Hrest IH]; simpl; [discriminate |].
  destruct (p (fst c)).
  - intros [= <-]. now constructor.
  - exact IH.
Qed.

(** What holds of every clause holds of those a [switch] runs. *)
Lemma Forall_entry {B : Type} (P : label * B -> Prop) (d : option string)
  (cs : list (label * B)) :
  Forall P cs -> Forall P (entry d cs).
Proof.
  intros H. unfold entry.
  destruct (from_first _ cs) eqn:E1; [eauto using Forall_from_first |].
  destruct (from_first is_default cs) eqn:E2; [eauto using Forall_from_first |].
  constructor.
Qed.

(** ** The webhook leg, one event *)

Section OneEvent.

Variable w : World.

Lemma framed_getContent (i : string) : framed (getContent w i).
Proof. unfold getContent. auto 6 with framed. Qed.

Lemma framed_sender (source : Line.EventSource) : framed (sender w source).
Proof.
  unfold sender. destruct (Line.userId source) as [uid |]; auto with framed.
  destruct (truthy uid); auto with framed.
Qed.

Lemma textEventHandler_dispatch (source : Line.EventSource)
  (message : Line.EventMessage) (s : State) :
  textEventHandler w (Line.MessageEvent source message) s =
  (who <- sender w source ;;
   dispatch w message (mail w (who ++ "からのメッセージ") None)) s.
Proof. reflexivity. Qed.

Lemma framed_dispatch (message : Line.EventMessage) (msg : Mail.MailData) :
  framed (dispatch w message msg).
Proof.
  unfold dispatch. apply framed_bind.
  - unfold switch. apply framed_run_clauses, Forall_entry.
    unfold message_clauses, append_line, skip.
    repeat constructor; intros v; simpl; auto using framed_getContent with framed.
  - intros [[ | | ] msg']; simpl; auto with framed.
Qed.

Lemma framed_textEventHandler (event : Line.WebhookEvent) :
  framed (textEventHandler w event).
Proof.
  destruct event as [source message | ty]; [| apply framed_ret].
  destruct (framed_bind (sender w source)
              (fun who =>
                 dispatch w message (mail w (who ++ "からのメッセージ") None)))
    as (o & cs & H); auto using framed_sender, framed_dispatch.
  exists o, cs. intros s. now rewrite textEventHandler_dispatch.
Qed.

(** Every event does from any state what it does on its own. *)
Lemma textEventHandler_effect (event : Line.WebhookEvent) (s : State) :
  textEventHandler w event s =
  (fst (effect w event), logged s (snd (effect w event))).
Proof.
  destruct (framed_textEventHandler event) as (o & cs & H).
  unfold effect. now rewrite (H initial), H.
Qed.

(** *** The greeting *)

Lemma sender_cases (source : Line.EventSource) (s : State) :
  sender_spec w source s (sender w source s).
Proof.
  unfold sender. destruct (Line.userId source) as [uid |] eqn:Eu.
  - destruct (truthy uid) eqn:Et.
    + unfold bind, await, ret. destruct (getProfile w uid) as [r | p] eqn:Ep.
      * now apply sender_rejected with (uid := uid).
      * now apply sender_named with (uid := uid).
    + apply truthy_empty in Et. subst uid. apply sender_anonymous. now right.
  - apply sender_anonymous. now left.
Qed.

Lemma sender_named_run (source : Line.EventSource) (s : State)
  (uid : string) (p : Line.Profile) :
  Line.userId source = Some uid -> truthy uid = true ->
  getProfile w uid = inr p ->
  sender w source s =
  (Ok (Line.displayName p ++ "さん"), logged s [GetProfile uid]).
Proof.
  intros Hu Ht Hp. unfold sender, bind, await. now rewrite Hu, Ht, Hp.
Qed.

Lemma sender_rejected_run (source : Line.EventSource) (s : State)
  (uid : string) (r : rejection) :
  Line.userId source = Some uid -> truthy uid = true ->
  getProfile w uid = inl r ->
  sender w source s = (Throw (Rejected r), logged s [GetProfile uid]).
Proof.
  intros Hu Ht Hp. unfold sender, bind, await. now rewrite Hu, Ht, Hp.
Qed.

Lemma sender_anonymous_run (source : Line.EventSource) (s : State) :
  Line.userId source = None \/ Line.userId source = Some "" ->
  sender w source s = (Ok "ユーザー", s).
Proof. intros [Hu | Hu]; unfold sender; now rewrite Hu. Qed.

Lemma named_greeting (displayName : string) :
  (displayName ++ "さん") ++ "からのメッセージ" =
  displayName ++ "さんからのメッセージ".
Proof. now rewrite append_assoc. Qed.

Lemma getContent_cases (i : string) (s : State) :
  getContent_spec w i s (getContent w i s).
Proof.
  unfold getContent, bind, await, ret. cbv zeta.
  fold (content_url i). fold (authorization w). fold (fetch_content w i).
  destruct (fetch_content w i) as [r | f] eqn:Ef.
  - now apply content_unreachable.
  - destruct (body_buffer f) as [r | data] eqn:Eb; rewrite logged_logged; simpl.
    + now apply content_unreadable with (f := f).
    + now apply content_read.
Qed.

(** *** What the [switch] does, kind by kind *)

Lemma text_event_run (source : Line.EventSource) (i t : string) (s : State) :
  textEventHandler w (message_event source "text" i t) s =
  (who <- sender w source ;;
   let msg := mail w ((who ++ "からのメッセージ") ++ LF ++ LF ++ t) None in
   await (Send msg) (sgMail_send w msg)) s.
Proof.
  unfold textEventHandler, message_event, bind.
  destruct (sender w source s) as [[who | e] s1]; reflexivity.
Qed.

(** All four media kinds enter the [switch] above the shared block that
    fetches the content, and leave it at the first [break] below it, which
    is the one of the second [case "image"]. *)
Lemma media_event_run (source : Line.EventSource) (kind i t : string)
  (s : State) :
  In kind ["image"; "video"; "audio"; "file"] ->
  textEventHandler w (message_event source kind i t) s =
  (who <- sender w source ;;
   c <- getContent w i ;;
   let msg :=
     mail w ((who ++ "からのメッセージ") ++ LF ++ LF ++ "画像メッセージ")
       (Some [attachment c]) in
   await (Send msg) (sgMail_send w msg)) s.
Proof.
  intros Hk. unfold textEventHandler, message_event, bind.
  destruct (sender w source s) as [[who | e] s1]; [| reflexivity].
  simpl in Hk.
  destruct Hk as [<- | [<- | [<- | [<- | []]]]]; cbn;
    unfold bind; destruct (getContent w i s1) as [[c | e] s2]; reflexivity.
Qed.

Lemma sticker_event_run (source : Line.EventSource) (i t : string)
  (s : State) :
  textEventHandler w (message_event source "sticker" i t) s =
  (who <- sender w source ;;
   let msg := mail w ((who ++ "からのメッセージ") ++ LF ++ LF ++ "スタンプ") None in
   await (Send msg) (sgMail_send w msg)) s.
Proof.
  unfold textEventHandler, message_event, bind.
  destruct (sender w source s) as [[who | e] s1]; reflexivity.
Qed.

(** A kind that no [case] names enters the [switch] at [default]. *)
Lemma unhandled_entry (message : Line.EventMessage) :
  ~ In (Line.type message) handled_kinds ->
  exists body,
    entry (Some (Line.type message)) (message_clauses w message) =
    [(Default, body)] /\ forall msg s, body msg s = (Ok (Return, msg), s).
Proof.
  intros H. eexists. split.
  - unfold entry, message_clauses. cbn [from_first fst selects].
    repeat match goal with
    | |- context [String.eqb ?a ?b] =>
        let E := fresh in
        destruct (String.eqb_spec a b) as [E | E];
        [exfalso; apply H; rewrite <- E; simpl; tauto |]
    end.
    reflexivity.
  - reflexivity.
Qed.

Lemma unhandled_event_run (source : Line.EventSource)
  (message : Line.EventMessage) (s : State) :
  ~ In (Line.type message) handled_kinds ->
  textEventHandler w (Line.MessageEvent source message) s =
  (sender w source ;; ret tt) s.
Proof.
  intros H. destruct (unhandled_entry message H) as (body & E & Hbody).
  unfold textEventHandler, bind, switch. rewrite E.
  destruct (sender w source s) as [[who | e] s1]; [| reflexivity].
  simpl. unfold bind. rewrite Hbody. reflexivity.
Qed.

(** C5.  For every text message event, the e-mail handed to [sgMail.send]
    has for body the greeting line, a blank line, then the text of the
    message, and has no attachment.  The greeting line is the display name
    that [client.getProfile] answers, followed by "さんからのメッセージ", when
    the event carries a (non-empty) user id, and "ユーザーからのメッセージ"
    when it carries none.  When the profile lookup is rejected, no e-mail is
    produced and the rejection is the handler's. *)
Theorem text_event_email (source : Line.EventSource) (i t : string)
  (s : State) :
  let run := textEventHandler w (message_event source "text" i t) in
  (forall uid p,
      Line.userId source = Some uid -> truthy uid = true ->
      getProfile w uid = inr p ->
      calls run s =
      [GetProfile uid;
       Send (mail w ((Line.displayName p ++ "さんからのメッセージ")
                     ++ LF ++ LF ++ t) None)])
  /\ (Line.userId source = None \/ Line.userId source = Some "" ->
      calls run s =
      [Send (mail w ("ユーザーからのメッセージ" ++ LF ++ LF ++ t) None)])
  /\ (forall uid r,
      Line.userId source = Some uid -> truthy uid = true ->
      getProfile w uid = inl r ->
      run s = (Throw (Rejected r), logged s [GetProfile uid])).
Proof.
  cbv zeta. repeat split.
  - intros uid p Hu Ht Hp. apply calls_snd.
    rewrite text_event_run. unfold bind.
    rewrite (sender_named_run source s uid p Hu Ht Hp).
    rewrite await_run, logged_logged, named_greeting. reflexivity.
  - intros Hu. apply calls_snd.
    rewrite text_event_run. unfold bind.
    rewrite (sender_anonymous_run source s Hu).
    rewrite await_run. reflexivity.
  - intros uid r Hu Ht Hp.
    rewrite text_event_run. unfold bind.
    now rewrite (sender_rejected_run source s uid r Hu Ht Hp).
Qed.

(** C10.  When a message event carries a user id, the profile lookup is the
    first call of the handler, whatever the kind of the message.  For a kind
    outside the six handled ones it is the only call: its rejection is the
    handler's error, and when it is answered the handler returns without
    sending anything. *)
Theorem profile_fetch_precedes_dispatch (source : Line.EventSource)
  (message : Line.EventMessage) (uid : string) (s : State) :
  Line.userId source = Some uid -> truthy uid = true ->
  let run := textEventHandler w (Line.MessageEvent source message) in
  (exists later, calls run s = GetProfile uid :: later)
  /\ (~ In (Line.type message) handled_kinds ->
      run s =
      match getProfile w uid with
      | inl r => (Throw (Rejected r), logged s [GetProfile uid])
      | inr _ => (Ok tt, logged s [GetProfile uid])
      end).
Proof.
  intros Hu Ht. cbv zeta. split.
  - destruct (getProfile w uid) as [r | p] eqn:Hp.
    + exists []. apply calls_snd.
      rewrite textEventHandler_dispatch. unfold bind.
      now rewrite (sender_rejected_run source s uid r).
    + destruct (framed_dispatch message
                  (mail w ((Line.displayName p ++ "さん") ++ "からのメッセージ") None))
        as (o & cs & Hd).
      exists cs. apply calls_snd.
      rewrite textEventHandler_dispatch. unfold bind.
      rewrite (sender_named_run source s uid p Hu Ht Hp).
      now rewrite Hd, logged_logged.
  - intros Hk. rewrite unhandled_event_run by exact Hk. unfold bind.
    destruct (getProfile w uid) as [r | p] eqn:Hp.
    + now rewrite (sender_rejected_run source s uid r).
    + now rewrite (sender_named_run source s uid p).
Qed.

(** What a media event sends, when it sends: the greeting, the label of the
    second [case "image"], and the fetched content, in base64, as its one
    attachment. *)
Lemma media_event_email (source : Line.EventSource) (kind i t : string)
  (s : State) (msg : Mail.MailData) :
  In kind ["image"; "video"; "audio"; "file"] ->
  In (Send msg) (calls (textEventHandler w (message_event source kind i t)) s) ->
  exists who f data,
    fetch_content w i = inr f /\ body_buffer f = inr data /\
    msg =
    mail w ((who ++ "からのメッセージ") ++ LF ++ LF ++ "画像メッセージ")
      (Some [ {| Mail.content := Base64.encode data;
                 Mail.type := or_else (content_type f) "";
                 Mail.filename :=
                   or_else (mime_extension w (or_else (content_type f) "")) "" |} ]).
Proof.
  intros Hk. unfold calls. rewrite (media_event_run source kind i t s Hk).
  unfold bind.
  destruct (sender_cases source s) as [Hu | uid p Hu Ht Hp | uid r Hu Ht Hp].
  - destruct (getContent_cases i s) as [r Hf | f r Hf Hb | f data Hf Hb];
      new_calls; cbn [In app]; intros H; decompose [or] H; try discriminate;
      try contradiction.
    match goal with E : Send _ = Send _ |- _ => injection E as <- end.
    now exists "ユーザー", f, data.
  - destruct (getContent_cases i (logged s [GetProfile uid]))
      as [r Hf | f r Hf Hb | f data Hf Hb];
      new_calls; cbn [In app]; intros H; decompose [or] H; try discriminate;
      try contradiction.
    match goal with E : Send _ = Send _ |- _ => injection E as <- end.
    now exists (Line.displayName p ++ "さん"), f, data.
  - new_calls. cbn [In app]. intros [H | []]; discriminate.
Qed.

(** X1.  The e-mail of a media event has exactly one attachment, and its
    content is the base64 text of the bytes that were fetched: decoding it
    gives these bytes back. *)
Lemma media_event_attachment (source : Line.EventSource) (kind i t : string)
  (s : State) (msg : Mail.MailData) :
  In kind ["image"; "video"; "audio"; "file"] ->
  In (Send msg) (calls (textEventHandler w (message_event source kind i t)) s) ->
  exists a f data,
    fetch_content w i = inr f /\ body_buffer f = inr data /\
    Mail.attachments msg = Some [a] /\
    Mail.content a = Base64.encode data /\
    Base64.decode (Mail.content a) = Some data.
Proof.
  intros Hk Hsend.
  destruct (media_event_email source kind i t s msg Hk Hsend)
    as (who & f & data & Hf & Hb & ->).
  eexists. exists f, data. cbn [Mail.attachments mail].
  repeat split; try eassumption; try reflexivity.
  apply Base64Facts.decode_encode.
Qed.

(** The body of a media e-mail ends with the line of the image label. *)
Lemma media_event_label (source : Line.EventSource) (kind i t : string)
  (s : State) (msg : Mail.MailData) :
  In kind ["image"; "video"; "audio"; "file"] ->
  In (Send msg) (calls (textEventHandler w (message_event source kind i t)) s) ->
  ends_with (Mail.text msg) (LF ++ "画像メッセージ").
Proof.
  intros Hk Hsend.
  destruct (media_event_email source kind i t s msg Hk Hsend)
    as (who & f & data & _ & _ & ->).
  exists ((who ++ "からのメッセージ") ++ LF). symmetry. apply append_assoc.
Qed.

(** No body that ends with the line of the image label also ends with the
    line of another media label. *)
Lemma image_label_only (body kind : string) :
  In kind ["video"; "audio"; "file"] ->
  ends_with body (LF ++ "画像メッセージ") ->
  ~ ends_with body (LF ++ claimed_label kind).
Proof.
  intros Hk H1 H2.
  apply ends_with_rev in H1. destruct H1 as [f1 E1].
  apply ends_with_rev in H2. destruct H2 as [f2 E2].
  rewrite E1 in E2. clear E1.
  simpl in Hk. destruct Hk as [<- | [<- | [<- | []]]];
    vm_compute in E2; discriminate E2.
Qed.

(** C1, at the kinds where the code departs from it.  The e-mail that a
    video, audio or file message produces ends with the line of the image
    label, and does not end with the line of the label of its own kind: the
    first [case] of each of these kinds stands above the shared attachment
    block, which falls through into the second [case "image"], and the
    clauses of the three other labels are never entered. *)
Theorem media_label_is_the_image_label (source : Line.EventSource)
  (kind i t : string) (s : State) (msg : Mail.MailData) :
  In kind ["video"; "audio"; "file"] ->
  In (Send msg) (calls (textEventHandler w (message_event source kind i t)) s) ->
  ends_with (Mail.text msg) (LF ++ "画像メッセージ") /\
  ~ ends_with (Mail.text msg) (LF ++ claimed_label kind).
Proof.
  intros Hk Hsend.
  assert (Himage : ends_with (Mail.text msg) (LF ++ "画像メッセージ")).
  { apply (media_event_label source kind i t s); [| exact Hsend].
    simpl in *. tauto. }
  split; [exact Himage |]. now apply image_label_only.
Qed.

End OneEvent.

(** Three text events: from nobody, from a user whose profile is found,
    from a user whose profile lookup is rejected. *)
Example text_events :
  calls (textEventHandler Example.world Example.hello) initial =
  [Send (mail Example.world ("ユーザーからのメッセージ" ++ LF ++ LF ++ "hello") None)]
  /\ calls (textEventHandler Example.world
              (message_event Example.known "text" "47" "hi")) initial =
     [GetProfile "U-hana";
      Send (mail Example.world
              ("Hanaさんからのメッセージ" ++ LF ++ LF ++ "hi") None)]
  /\ textEventHandler Example.world Example.lost initial =
     (Throw (Rejected (ApiError "404 Not Found")),
      logged initial [GetProfile "U-gone"]).
Proof. repeat split. Qed.

Lemma profile_fetch_precedes_dispatch_witness :
  ~ In (Line.type Example.location) handled_kinds /\
  textEventHandler Example.world
    (Line.MessageEvent Example.gone Example.location) initial =
  (Throw (Rejected (ApiError "404 Not Found")),
   logged initial [GetProfile "U-gone"]).
Proof.
  assert (Hk : ~ In (Line.type Example.location) handled_kinds).
  { simpl. intros H. decompose [or] H; discriminate || contradiction. }
  split; [exact Hk |].
  exact (proj2 (profile_fetch_precedes_dispatch Example.world Example.gone
                  Example.location "U-gone" initial eq_refl eq_refl) Hk).
Defined.

Lemma media_label_is_the_image_label_witness :
  In "video" ["video"; "audio"; "file"] /\
  In (Send Example.video_mail)
    (calls (textEventHandler Example.world Example.video) initial) /\
  ends_with (Mail.text Example.video_mail) (LF ++ "画像メッセージ") /\
  ~ ends_with (Mail.text Example.video_mail) (LF ++ "動画メッセージ").
Proof.
  assert (Hk : In "video" ["video"; "audio"; "file"]) by (simpl; tauto).
  assert (H : In (Send Example.video_mail)
                (calls (textEventHandler Example.world Example.video) initial))
    by (vm_compute; do 3 right; left; reflexivity).
  split; [exact Hk |]. split; [exact H |].
  exact (media_label_is_the_image_label Example.world Example.known "video"
           "42" "" initial Example.video_mail Hk H).
Defined.

(** ** The webhook leg, a batch *)

Section Batch.

Variable w : World.

Lemma on_event_run (event : Line.WebhookEvent) (s : State) :
  on_event w event s =
  match fst (effect w event) with
  | Ok _ => (Ok Http.Undefined, logged s (snd (effect w event)))
  | Throw _ => answer_500 (logged s (snd (effect w event)))
  end.
Proof.
  unfold on_event, try_catch, bind.
  rewrite textEventHandler_effect.
  destruct (fst (effect w event)); reflexivity.
Qed.

(** The second write of a response fails and leaves what was sent. *)
Lemma answer_500_sent (s : State) (x : Z * Http.body) :
  Http.sent (res s) = Some x ->
  exists s',
    answer_500 s = (Throw ERR_HTTP_HEADERS_SENT, s') /\
    trace s' = trace s /\ drawn s' = drawn s /\ Http.sent (res s') = Some x.
Proof.
  intros H. unfold answer_500, bind, status, json, Http.headersSent. simpl.
  rewrite H. eauto.
Qed.

Lemma answer_500_fresh (s : State) :
  Http.sent (res s) = None ->
  exists s',
    answer_500 s = (Ok Http.TheResponse, s') /\
    trace s' = trace s /\ drawn s' = drawn s /\
    Http.sent (res s') = Some (500%Z, Http.StatusError).
Proof.
  intros H. unfold answer_500, bind, status, json, Http.headersSent. simpl.
  rewrite H. eauto.
Qed.

(** The calls of a batch are the calls of its events, one event after the
    other. *)
Lemma settle_all_trace (events : list Line.WebhookEvent)
  (s : State) :
  trace (snd (settle_all (map (on_event w) events) s)) =
  (trace s ++ concat (map (fun e => snd (effect w e)) events))%list.
Proof.
  revert s. induction events as [| e rest IH]; intros s; simpl.
  - now rewrite app_nil_r.
  - destruct (on_event w e s) as [o s1] eqn:E1.
    destruct (settle_all (map (on_event w) rest) s1) as [os s2] eqn:E2.
    simpl. replace s2 with (snd (settle_all (map (on_event w) rest) s1))
      by now rewrite E2.
    rewrite IH, app_assoc. f_equal.
    rewrite on_event_run in E1.
    destruct (fst (effect w e)).
    + injection E1 as _ <-. reflexivity.
    + destruct (Http.sent (res (logged s (snd (effect w e))))) as [x |] eqn:Hx.
      * destruct (answer_500_sent _ x Hx) as (s' & Ha & Ht & _).
        rewrite Ha in E1. injection E1 as _ <-. now rewrite Ht.
      * destruct (answer_500_fresh _ Hx) as (s' & Ha & Ht & _).
        rewrite Ha in E1. injection E1 as _ <-. now rewrite Ht.
Qed.

(** Once a response has been sent, it stays, and every later callback
    either answers [undefined] or rejects on its write. *)
Lemma settle_all_sent (events : list Line.WebhookEvent)
  (s : State) (x : Z * Http.body) :
  Http.sent (res s) = Some x ->
  Http.sent (res (snd (settle_all (map (on_event w) events) s))) = Some x /\
  Forall (fun o => o = Ok Http.Undefined \/ o = Throw ERR_HTTP_HEADERS_SENT)
    (fst (settle_all (map (on_event w) events) s)).
Proof.
  revert s. induction events as [| e rest IH]; intros s Hs; simpl.
  - auto.
  - destruct (on_event w e s) as [o s1] eqn:E1.
    assert (H1 : Http.sent (res s1) = Some x /\
                 (o = Ok Http.Undefined \/ o = Throw ERR_HTTP_HEADERS_SENT)).
    { rewrite on_event_run in E1. destruct (fst (effect w e)).
      - injection E1 as <- <-. auto.
      - destruct (answer_500_sent (logged s (snd (effect w e))) x Hs)
          as (s' & Ha & _ & _ & Hx).
        rewrite Ha in E1. injection E1 as <- <-. auto. }
    destruct H1 as [Hs1 Ho].
    destruct (IH s1 Hs1) as [IH1 IH2].
    destruct (settle_all (map (on_event w) rest) s1) as [os s2].
    simpl in *. auto.
Qed.

(** When no event fails, every callback answers [undefined] and the
    response is untouched. *)
Lemma settle_all_quiet (events : list Line.WebhookEvent)
  (s : State) :
  existsb (fails w) events = false ->
  fst (settle_all (map (on_event w) events) s) =
  repeat (Ok Http.Undefined) (List.length events) /\
  res (snd (settle_all (map (on_event w) events) s)) = res s.
Proof.
  revert s. induction events as [| e rest IH]; intros s H; simpl in *.
  - auto.
  - apply orb_false_elim in H. destruct H as [He Hrest].
    rewrite on_event_run. unfold fails in He.
    destruct (fst (effect w e)); [| discriminate].
    destruct (IH (logged s (snd (effect w e))) Hrest) as [IH1 IH2].
    destruct (settle_all (map (on_event w) rest) _) as [os s2].
    simpl in *. now rewrite IH1, IH2.
Qed.

Lemma gather_quiet {A : Type} (a : A) (n : nat) :
  gather (repeat (Ok a) n) = Ok (repeat a n).
Proof. induction n as [| n IH]; simpl; [reflexivity | now rewrite IH]. Qed.

Lemma gather_after_sent (os : list (outcome Http.slot)) :
  Forall (fun o => o = Ok Http.Undefined \/ o = Throw ERR_HTTP_HEADERS_SENT) os ->
  gather os = Throw ERR_HTTP_HEADERS_SENT \/ exists l, gather os = Ok l.
Proof.
  induction 1 as [| o os [-> | ->] _ IH]; simpl; eauto.
  destruct IH as [-> | [l ->]]; eauto.
Qed.

(** When some event fails, the response written by the first failing
    callback is the one that is sent; [Promise.all] then rejects, or
    resolves to an array that holds the response object. *)
Lemma settle_all_failure (events : list Line.WebhookEvent)
  (s : State) :
  Http.sent (res s) = None ->
  existsb (fails w) events = true ->
  Http.sent (res (snd (settle_all (map (on_event w) events) s))) =
  Some (500%Z, Http.StatusError) /\
  (gather (fst (settle_all (map (on_event w) events) s)) =
   Throw ERR_HTTP_HEADERS_SENT \/
   exists l,
     gather (fst (settle_all (map (on_event w) events) s)) = Ok l /\
     existsb Http.is_response l = true).
Proof.
  revert s. induction events as [| e rest IH]; intros s Hs H; simpl in *.
  - discriminate.
  - rewrite on_event_run. unfold fails in H.
    destruct (fst (effect w e)) eqn:He; simpl in H.
    + destruct (IH (logged s (snd (effect w e))) Hs H) as [IH1 IH2].
      destruct (settle_all (map (on_event w) rest) _) as [os s2].
      simpl in *. split; [exact IH1 |].
      destruct IH2 as [-> | (l & -> & Hl)]; eauto.
    + clear IH H.
      destruct (answer_500_fresh (logged s (snd (effect w e))) Hs)
        as (s1 & -> & _ & _ & Hx).
      destruct (settle_all_sent rest s1 _ Hx) as [H1 H2].
      destruct (settle_all (map (on_event w) rest) s1) as [os s2].
      simpl in *. split; [exact H1 |].
      destruct (gather_after_sent os H2) as [-> | [l ->]]; eauto.
Qed.

Lemma webhook_run (events : list Line.WebhookEvent) (s : State) :
  webhook w events s =
  match gather (fst (settle_all (map (on_event w) events) s)) with
  | Ok results =>
      (status 200 ;; json (Http.StatusSuccess results))
        (snd (settle_all (map (on_event w) events) s))
  | Throw e => (Throw e, snd (settle_all (map (on_event w) events) s))
  end.
Proof.
  unfold webhook, bind at 1, promise_all.
  destruct (settle_all (map (on_event w) events) s) as [os s1]. simpl.
  destruct (gather os); reflexivity.
Qed.

(** The last write keeps the trace, and throws nothing but the two errors
    of a response write. *)
Lemma answer_200_run (results : list Http.slot) (s : State) :
  trace (snd ((status 200 ;; json (Http.StatusSuccess results)) s)) = trace s /\
  forall r,
    fst ((status 200 ;; json (Http.StatusSuccess results)) s) <>
    Throw (Rejected r).
Proof.
  unfold bind, status, json. simpl.
  destruct (negb (negb (existsb Http.is_response results))); simpl.
  - split; [reflexivity | discriminate].
  - destruct (Http.headersSent _); simpl; split;
      try reflexivity; discriminate.
Qed.

Lemma gather_throws {A : Type} (os : list (outcome A)) (e : error) :
  gather os = Throw e -> In (Throw e) os.
Proof.
  induction os as [| [a | e'] os IH]; simpl; try discriminate.
  - destruct (gather os); [discriminate |]. intros [= ->]. auto.
  - intros [= ->]. auto.
Qed.

(** A callback never rejects with the rejection of its event: the [catch]
    block takes it. *)
Lemma on_event_catches (event : Line.WebhookEvent) (s : State)
  (r : rejection) :
  fst (on_event w event s) <> Throw (Rejected r).
Proof.
  rewrite on_event_run. destruct (fst (effect w event)); [discriminate |].
  unfold answer_500, bind, status, json. simpl.
  destruct (Http.headersSent _); discriminate.
Qed.

Lemma settle_all_catches (events : list Line.WebhookEvent)
  (s : State) (r : rejection) :
  ~ In (Throw (Rejected r)) (fst (settle_all (map (on_event w) events) s)).
Proof.
  revert s. induction events as [| e rest IH]; intros s; simpl; [tauto |].
  pose proof (on_event_catches e s r) as He.
  destruct (on_event w e s) as [o s1].
  specialize (IH s1).
  destruct (settle_all (map (on_event w) rest) s1) as [os s2].
  simpl in *. intros [H | H]; auto.
Qed.

(** The calls of the webhook handler are those of the callbacks, here in
    the order in which [settle_all] runs them: the response writes make
    none. *)
Lemma webhook_calls (events : list Line.WebhookEvent) (s : State) :
  calls (webhook w events) s = concat (map (fun e => snd (effect w e)) events).
Proof.
  apply calls_trace. rewrite webhook_run.
  pose proof (settle_all_trace events s) as Ht.
  destruct (gather _) as [results | e]; cbn [snd]; [| exact Ht].
  now destruct (answer_200_run results
                  (snd (settle_all (map (on_event w) events) s))) as [-> _].
Qed.

Lemma webhook_quiet (events : list Line.WebhookEvent) (s : State) :
  Http.sent (res s) = None ->
  existsb (fails w) events = false ->
  fst (webhook w events s) = Ok Http.TheResponse /\
  Http.sent (res (snd (webhook w events s))) =
  Some (200%Z, Http.StatusSuccess (repeat Http.Undefined (List.length events))).
Proof.
  intros Hs H. rewrite webhook_run.
  destruct (settle_all_quiet events s H) as [-> Hres].
  rewrite gather_quiet.
  unfold bind, status, json, Http.headersSent. cbn [Http.serialisable].
  assert (Hr : existsb Http.is_response
                 (repeat Http.Undefined (List.length events)) = false).
  { induction (List.length events); simpl; auto. }
  rewrite Hr. simpl. rewrite Hres, Hs. auto.
Qed.

Lemma webhook_failure (events : list Line.WebhookEvent) (s : State) :
  Http.sent (res s) = None ->
  existsb (fails w) events = true ->
  Http.sent (res (snd (webhook w events s))) = Some (500%Z, Http.StatusError).
Proof.
  intros Hs H. rewrite webhook_run.
  destruct (settle_all_failure events s Hs H) as [Hsent Hg].
  destruct Hg as [-> | (l & -> & Hl)]; [exact Hsent |].
  unfold bind, status, json. cbn [Http.serialisable].
  rewrite Hl. simpl. exact Hsent.
Qed.

(** C2, amended.  On a response that has not been sent yet: when no event
    of the batch throws, the handler answers and the response sent is 200
    with the results, one [undefined] per event; when some event throws, the
    response sent is the 500 [{status: "error"}] that the [catch] block of
    the first failing event writes. *)
Theorem webhook_response (events : list Line.WebhookEvent) (s : State) :
  Http.sent (res s) = None ->
  (existsb (fails w) events = false ->
     fst (webhook w events s) = Ok Http.TheResponse /\
     Http.sent (res (snd (webhook w events s))) =
     Some (200%Z,
           Http.StatusSuccess (repeat Http.Undefined (List.length events))))
  /\ (existsb (fails w) events = true ->
     Http.sent (res (snd (webhook w events s))) =
     Some (500%Z, Http.StatusError)).
Proof.
  intros Hs. split; intros H.
  - now apply webhook_quiet.
  - now apply webhook_failure.
Qed.

(** After the 500 of a [catch] block, the handler itself fails on a response
    write: either a second [catch] block throws on its write, which rejects
    [Promise.all], or the results hold the response object, which the last
    write cannot serialise. *)
Lemma webhook_second_write (events : list Line.WebhookEvent) (s : State) :
  Http.sent (res s) = None ->
  existsb (fails w) events = true ->
  fst (webhook w events s) = Throw ERR_HTTP_HEADERS_SENT \/
  fst (webhook w events s) = Throw TypeError_circular_structure.
Proof.
  intros Hs H. rewrite webhook_run.
  destruct (settle_all_failure events s Hs H) as [_ Hg].
  destruct Hg as [-> | (l & -> & Hl)].
  - auto.
  - unfold bind, status, json. cbn [Http.serialisable].
    rewrite Hl. simpl. auto.
Qed.

(** C4, with the clause where the code departs from it.  In a batch every
    event makes the calls it makes on its own, whatever becomes of the
    other events: the calls of the batch are those of its events, up to the
    order in which the callbacks take their turns.  In particular an e-mail
    that an event sends on its own is sent in the batch, also when another
    event of the batch throws.  But the handler of the batch does throw as
    soon as one event does: the [catch] block answers the response object,
    which the last write cannot serialise, and the [catch] block of a second
    failing event throws on its own write. *)
Theorem events_are_independent (events : list Line.WebhookEvent) (s : State) :
  Permutation (calls (webhook w events) s)
    (concat (map (fun e => snd (effect w e)) events))
  /\ (forall event msg,
        In event events -> In (Send msg) (snd (effect w event)) ->
        In (Send msg) (calls (webhook w events) s))
  /\ (Http.sent (res s) = None -> existsb (fails w) events = true ->
      fst (webhook w events s) = Throw ERR_HTTP_HEADERS_SENT \/
      fst (webhook w events s) = Throw TypeError_circular_structure).
Proof.
  split; [now rewrite webhook_calls |]. split.
  - intros event msg He Hm. rewrite webhook_calls. apply in_concat.
    exists (snd (effect w event)). split; [| exact Hm].
    apply in_map_iff. now exists event.
  - apply webhook_second_write.
Qed.

Lemma fails_permuted (events events' : list Line.WebhookEvent) :
  Permutation events events' ->
  existsb (fails w) events = existsb (fails w) events'.
Proof.
  induction 1 as [| e l l' _ IH | e e' l | l l' l'' _ IH1 _ IH2]; simpl.
  - reflexivity.
  - now rewrite IH.
  - now rewrite !orb_assoc, (orb_comm (fails w e')).
  - now rewrite IH1.
Qed.

(** X2.  The order in which the callbacks are run, which the model fixes,
    is immaterial: taking the events in another order changes neither the
    calls that are made, up to their order, nor the response that is
    sent. *)
Lemma batch_order (events events' : list Line.WebhookEvent) (s : State) :
  Http.sent (res s) = None ->
  Permutation events events' ->
  Permutation (calls (webhook w events) s) (calls (webhook w events') s) /\
  Http.sent (res (snd (webhook w events s))) =
  Http.sent (res (snd (webhook w events' s))).
Proof.
  intros Hs Hp. split.
  - rewrite !webhook_calls, <- !flat_map_concat_map.
    now apply Permutation_flat_map.
  - pose proof (fails_permuted events events' Hp) as E.
    destruct (existsb (fails w) events) eqn:Ev.
    + now rewrite !webhook_failure.
    + destruct (webhook_quiet events s Hs Ev) as [_ ->].
      destruct (webhook_quiet events' s Hs) as [_ ->]; [now rewrite <- E |].
      now rewrite (Permutation_length Hp).
Qed.

End Batch.

(** The batch of the specification: the e-mails of the first and of the
    third event are sent, and the handler throws. *)
Lemma events_are_independent_witness :
  In (Send (mail Example.world
              ("ユーザーからのメッセージ" ++ LF ++ LF ++ "hello") None))
    (calls (webhook Example.world
              [Example.hello; Example.lost; Example.sticker]) initial) /\
  In (Send (mail Example.world
              ("ユーザーからのメッセージ" ++ LF ++ LF ++ "スタンプ") None))
    (calls (webhook Example.world
              [Example.hello; Example.lost; Example.sticker]) initial) /\
  fst (webhook Example.world [Example.hello; Example.lost; Example.sticker]
         initial) =
  Throw TypeError_circular_structure.
Proof.
  destruct (events_are_independent Example.world
              [Example.hello; Example.lost; Example.sticker] initial)
    as (_ & Hsent & Hthrows).
  split; [| split].
  - apply (Hsent Example.hello); [simpl; tauto | vm_compute; tauto].
  - apply (Hsent Example.sticker); [simpl; tauto | vm_compute; tauto].
  - destruct (Hthrows eq_refl eq_refl) as [H | H]; [| exact H].
    vm_compute in H. discriminate H.
Defined.

(** C2 as stated does not hold: in a batch of two text events, the second
    from a user whose profile lookup is rejected, the response that is sent
    is the 500 of the [catch] block, not a 200 with results. *)
Lemma webhook_answers_500 :
  Http.sent (res (snd (webhook Example.world [Example.hello; Example.lost]
                          initial))) =
  Some (500%Z, Http.StatusError) /\
  ~ (exists results,
        Http.sent (res (snd (webhook Example.world
                               [Example.hello; Example.lost] initial))) =
        Some (200%Z, Http.StatusSuccess results)).
Proof.
  split; [reflexivity |]. intros [results H]. vm_compute in H. discriminate H.
Qed.

Lemma webhook_response_witness :
  Http.sent (res (snd (webhook Example.world [Example.hello; Example.sticker]
                          initial))) =
  Some (200%Z, Http.StatusSuccess [Http.Undefined; Http.Undefined]) /\
  Http.sent (res (snd (webhook Example.world
                          [Example.hello; Example.lost; Example.sticker]
                          initial))) =
  Some (500%Z, Http.StatusError).
Proof.
  split.
  - apply (webhook_response Example.world [Example.hello; Example.sticker]
             initial eq_refl); reflexivity.
  - apply (webhook_response Example.world
             [Example.hello; Example.lost; Example.sticker] initial eq_refl);
      reflexivity.
Defined.

(** The batch of the specification: three events, the second of which
    throws during the profile lookup.  The first and the third are
    processed to the end, and their callbacks answer [undefined]; the
    callback of the second answers the response object. *)
Example three_events :
  Permutation
    (calls (webhook Example.world [Example.hello; Example.lost; Example.sticker])
       initial)
    [Send (mail Example.world ("ユーザーからのメッセージ" ++ LF ++ LF ++ "hello") None);
     GetProfile "U-gone";
     Send (mail Example.world ("ユーザーからのメッセージ" ++ LF ++ LF ++ "スタンプ") None)]
  /\ fst (settle_all
            (map (on_event Example.world)
               [Example.hello; Example.lost; Example.sticker]) initial) =
     [Ok Http.Undefined; Ok Http.TheResponse; Ok Http.Undefined].
Proof. split; [apply Permutation_refl | reflexivity]. Qed.

(** ** The form leg *)

Section FormLeg.

Variable w : World.

Lemma unsupported_entry (file : Buffer) (fileUrl : string)
  (fileType : option string) :
  unsupported fileType ->
  entry fileType (file_clauses w file fileUrl) =
  [(Default, fun messageArray => ret (Break, messageArray))].
Proof.
  intros H. unfold entry, file_clauses. destruct fileType as [t |].
  - cbn [from_first fst selects].
    repeat match goal with
    | |- context [String.eqb ?a ?b] =>
        let E := fresh in
        destruct (String.eqb_spec a b) as [E | E];
        [exfalso; apply H; rewrite <- E; simpl; tauto |]
    end.
    reflexivity.
  - reflexivity.
Qed.

Lemma classify_unsupported (file : Buffer) (fileUrl : string)
  (fileType : option string) (messageArray : list Line.Message) (s : State) :
  unsupported fileType ->
  classify w file fileUrl fileType messageArray s = (Ok messageArray, s).
Proof.
  intros H. unfold classify, switch. now rewrite unsupported_entry.
Qed.

Lemma classify_image (file : Buffer) (fileUrl : string)
  (fileType : string) (messageArray : list Line.Message) (s : State) :
  In fileType ["image/jpeg"; "image/png"] ->
  classify w file fileUrl (Some fileType) messageArray s =
  (Ok (messageArray ++ [Line.ImageMessage fileUrl fileUrl])%list, s).
Proof. intros [<- | [<- | []]]; reflexivity. Qed.

Lemma classify_video (file : Buffer) (fileUrl : string)
  (fileType : string) (messageArray : list Line.Message) (s : State) :
  In fileType ["video/mp4"; "video/x-m4v"] ->
  classify w file fileUrl (Some fileType) messageArray s =
  (Ok (messageArray ++ [Line.VideoMessage fileUrl fileUrl])%list, s).
Proof. intros [<- | [<- | []]]; reflexivity. Qed.

Lemma classify_audio (file : Buffer) (fileUrl : string)
  (fileType : string) (messageArray : list Line.Message) (s : State) :
  In fileType ["audio/mp4"; "audio/x-m4a"] ->
  classify w file fileUrl (Some fileType) messageArray s =
  match parseBuffer w file with
  | inl r => (Throw (Rejected r), logged s [ParseBuffer file])
  | inr d =>
      (Ok (messageArray ++ [Line.AudioMessage fileUrl (duration d)])%list,
       logged s [ParseBuffer file])
  end.
Proof.
  intros [<- | [<- | []]]; unfold classify, switch, bind; cbn;
    unfold bind, await; destruct (parseBuffer w file); reflexivity.
Qed.

Lemma supported_cases (t : string) :
  is_supported (Some t) = true ->
  In t ["image/jpeg"; "image/png"] \/ In t ["video/mp4"; "video/x-m4v"] \/
  In t ["audio/mp4"; "audio/x-m4a"].
Proof.
  unfold is_supported, supported_types. cbn [existsb].
  repeat match goal with
  | |- context [String.eqb ?a ?b] =>
      destruct (String.eqb_spec a b); [subst; simpl; tauto |]
  end.
  discriminate.
Qed.

Lemma unsupported_iff (fileType : option string) :
  unsupported fileType <-> is_supported fileType = false.
Proof.
  destruct fileType as [t |]; unfold unsupported, is_supported;
    [| tauto].
  rewrite <- not_true_iff_false, existsb_exists. split.
  - intros H [x [Hx E]]. apply String.eqb_eq in E. now subst.
  - intros H Hin. apply H. exists t. split; [exact Hin | apply String.eqb_refl].
Qed.

(** One turn of the loop, step by step. *)
Lemma file_step_run (f : Form.File)
  (messageArray : list Line.Message) (s : State) :
  file_step w f messageArray s =
  let name := object_name (uuidv4 w (drawn s)) (Form.originalname f) in
  match save w name (Form.buffer f) with
  | inl r => (Throw (Rejected r), logged (drew s) [Save name (Form.buffer f)])
  | inr _ =>
      match makePublic w name with
      | inl r =>
          (Throw (Rejected r),
           logged (drew s) [Save name (Form.buffer f); MakePublic name])
      | inr _ =>
          classify w (Form.buffer f) (publicUrl w name)
            (fromBuffer w (Form.buffer f)) messageArray
            (logged (drew s) [Save name (Form.buffer f); MakePublic name])
      end
  end.
Proof.
  unfold file_step, bind at 1, draw_uuid. cbv zeta.
  fold (drew s). fold (object_name (uuidv4 w (drawn s)) (Form.originalname f)).
  unfold bind at 1, await at 1.
  destruct (save w _ _) as [r | u]; [reflexivity |].
  unfold bind at 1, await at 1.
  destruct (makePublic w _) as [r | u']; rewrite logged_logged; reflexivity.
Qed.

Lemma unsupported_not_audio (fileType : option string) :
  is_supported fileType = false -> is_audio fileType = false.
Proof.
  destruct fileType as [t |]; [| reflexivity].
  unfold is_supported, is_audio, supported_types. cbn [existsb].
  intros H. repeat (apply orb_false_elim in H; destruct H as [? H]).
  apply orb_false_intro; assumption.
Qed.

(** A turn of the loop that goes through: its calls, and the one element it
    appends when the content type is a supported one. *)
Lemma file_step_ok (f : Form.File)
  (messageArray messageArray' : list Line.Message) (s s' : State) :
  file_step w f messageArray s = (Ok messageArray', s') ->
  trace s' = (trace s ++ file_calls w (drawn s) f)%list /\
  drawn s' = S (drawn s) /\ res s' = res s /\
  exists more,
    messageArray' = (messageArray ++ more)%list /\
    List.length more =
    if is_supported (fromBuffer w (Form.buffer f)) then 1 else 0.
Proof.
  rewrite file_step_run. cbv zeta. unfold file_calls.
  destruct (save w _ _) as [r | u]; [discriminate |].
  destruct (makePublic w _) as [r | u']; [discriminate |].
  destruct (is_supported (fromBuffer w (Form.buffer f))) eqn:Hs.
  - destruct (fromBuffer w (Form.buffer f)) as [t |]; [| discriminate].
    destruct (supported_cases t Hs) as [H | [H | H]].
    + rewrite classify_image by exact H. intros [= <- <-].
      replace (is_audio (Some t)) with false
        by (simpl in H; decompose [or] H; subst; try reflexivity; contradiction).
      simpl. eauto 6.
    + rewrite classify_video by exact H. intros [= <- <-].
      replace (is_audio (Some t)) with false
        by (simpl in H; decompose [or] H; subst; try reflexivity; contradiction).
      simpl. eauto 6.
    + rewrite classify_audio by exact H.
      replace (is_audio (Some t)) with true
        by (simpl in H; decompose [or] H; subst; try reflexivity; contradiction).
      destruct (parseBuffer w (Form.buffer f)) as [r | d]; [discriminate |].
      intros [= <- <-]. simpl. rewrite <- app_assoc. simpl. eauto 6.
  - rewrite classify_unsupported by now apply unsupported_iff.
    rewrite (unsupported_not_audio _ Hs).
    intros [= <- <-]. simpl. repeat (split; [reflexivity |]).
    exists []. now rewrite app_nil_r.
Qed.

Lemma for_files_ok (fs : list Form.File) :
  forall (messageArray messageArray' : list Line.Message) (s s' : State),
  for_files w fs messageArray s = (Ok messageArray', s') ->
  trace s' = (trace s ++ loop_calls w (drawn s) fs)%list /\
  drawn s' = drawn s + List.length fs /\ res s' = res s /\
  exists more,
    messageArray' = (messageArray ++ more)%list /\
    List.length more =
    List.length
      (filter (fun f => is_supported (fromBuffer w (Form.buffer f))) fs).
Proof.
  induction fs as [| f rest IH]; intros m m' s s'; simpl.
  - intros [= <- <-]. rewrite app_nil_r, Nat.add_0_r.
    repeat split. exists []. now rewrite app_nil_r.
  - unfold bind. destruct (file_step w f m s) as [[m1 | e] s1] eqn:E1;
      [| discriminate].
    intros E2.
    destruct (file_step_ok f m m1 s s1 E1) as (Ht1 & Hd1 & Hr1 & more1 & -> & Hl1).
    destruct (IH _ _ _ _ E2) as (Ht2 & Hd2 & Hr2 & more2 & -> & Hl2).
    rewrite Ht2, Ht1, Hd1, Hd2, Hd1, Hr2, Hr1, <- !app_assoc.
    repeat split; [lia |].
    exists (more1 ++ more2)%list. split; [reflexivity |].
    rewrite length_app, Hl1, Hl2.
    destruct (is_supported _); reflexivity.
Qed.

(** One call of [client.pushMessage] per element, in array order, to the
    configured group, until one is rejected. *)
Lemma push_all_run (ms : list Line.Message) (s : State) :
  snd (push_all w ms s) =
  logged s (map (PushMessage (groupId w)) (attempted w ms)).
Proof.
  revert s. induction ms as [| m rest IH]; intros s; simpl.
  - now rewrite logged_nil.
  - unfold bind, await. destruct (pushMessage w (groupId w) m) as [r | u].
    + reflexivity.
    + now rewrite IH, logged_logged.
Qed.

Lemma push_all_ok (ms : list Line.Message) (s : State) :
  Forall (fun m => exists u, pushMessage w (groupId w) m = inr u) ms ->
  push_all w ms s = (Ok tt, logged s (map (PushMessage (groupId w)) ms)).
Proof.
  intros H. revert s.
  induction H as [| m rest [u Hm] _ IH]; intros s; simpl.
  - now rewrite logged_nil.
  - unfold bind, await. rewrite Hm, IH, logged_logged. reflexivity.
Qed.

(** The last write of the handler makes no call. *)
Lemma answer_empty_trace (s : State) :
  trace (snd ((status 200 ;; json Http.Empty) s)) = trace s.
Proof.
  unfold bind, status, json. simpl. now destruct (Http.headersSent _).
Qed.

(** The calls of a request whose loop goes through: those of the loop,
    then the pushes. *)
Lemma email_calls (req : Form.Request) (fs : list Form.File)
  (messageArray : list Line.Message) (s s1 : State) :
  Form.files req = Some fs ->
  for_files w fs [first_message req] s = (Ok messageArray, s1) ->
  calls (email w req) s =
  (loop_calls w (drawn s) fs ++
   map (PushMessage (groupId w)) (attempted w messageArray))%list.
Proof.
  intros Hf Hloop. apply calls_trace.
  destruct (for_files_ok fs _ _ _ _ Hloop) as (Ht & _).
  unfold email. rewrite Hf. unfold bind at 1. rewrite Hloop.
  unfold bind at 1.
  pose proof (push_all_run messageArray s1) as Hp.
  destruct (push_all w messageArray s1) as [[u | e] s2]; simpl in Hp; subst s2.
  - rewrite answer_empty_trace. simpl. now rewrite Ht, app_assoc.
  - simpl. now rewrite Ht, app_assoc.
Qed.

Lemma attempted_one (m : Line.Message) : attempted w [m] = [m].
Proof. simpl. now destruct (pushMessage w (groupId w) m). Qed.

(** C7.  A submission without files makes one call: a push, to the
    configured group, of the text message built from the three form
    fields. *)
Theorem no_file_one_text_message (from subject text : string) (s : State) :
  calls
    (email w {| Form.from := Some from; Form.subject := Some subject;
                Form.text := Some text; Form.files := Some [] |}) s =
  [PushMessage (groupId w)
     (Line.TextMessage
        ("From: " ++ from ++ LF ++ "Subject: " ++ subject ++ LF ++ LF ++ text))].
Proof.
  apply calls_trace.
  assert (E : forall req : Form.Request,
             Form.files req = Some [] ->
             trace (snd (email w req s)) =
             (trace s ++ [PushMessage (groupId w) (first_message req)])%list).
  { intros req Hreq. unfold email. rewrite Hreq.
    unfold bind at 1. cbn [for_files ret]. unfold bind at 1.
    pose proof (push_all_run [first_message req] s) as Hp.
    rewrite attempted_one in Hp.
    destruct (push_all w [first_message req] s) as [[u | e] s2];
      simpl in Hp; subst s2; [rewrite answer_empty_trace |]; reflexivity. }
  now rewrite E.
Qed.

(** C6.  For a submission with one file that is sniffed as JPEG, when the
    upload goes through and the first push is accepted, the calls are the
    upload, the ACL change, then two pushes to the configured group: the
    text message, then an image message whose two URLs are the public URL
    of the uploaded object.  In general [push_all] makes one call of
    [client.pushMessage] per element, in array order. *)
Theorem one_jpeg_two_pushes (req : Form.Request) (f : Form.File)
  (s : State) :
  Form.files req = Some [f] ->
  fromBuffer w (Form.buffer f) = Some "image/jpeg" ->
  save w (stored_as w s f) (Form.buffer f) = inr tt ->
  makePublic w (stored_as w s f) = inr tt ->
  pushMessage w (groupId w) (first_message req) = inr tt ->
  calls (email w req) s =
  [Save (stored_as w s f) (Form.buffer f);
   MakePublic (stored_as w s f);
   PushMessage (groupId w) (first_message req);
   PushMessage (groupId w)
     (Line.ImageMessage (publicUrl w (stored_as w s f))
        (publicUrl w (stored_as w s f)))]
  /\ (forall ms s',
        Forall (fun m => pushMessage w (groupId w) m = inr tt) ms ->
        calls (push_all w ms) s' = map (PushMessage (groupId w)) ms).
Proof.
  intros Hf Ht Hsave Hpublic Hpush. split.
  - rewrite (email_calls req [f]
               [first_message req;
                Line.ImageMessage (publicUrl w (stored_as w s f))
                  (publicUrl w (stored_as w s f))]
               s (logged (drew s)
                    [Save (stored_as w s f) (Form.buffer f);
                     MakePublic (stored_as w s f)]) Hf).
    + simpl. unfold file_calls. fold (stored_as w s f).
      rewrite Ht, Hpush.
      destruct (pushMessage w (groupId w) (Line.ImageMessage _ _));
        reflexivity.
    + simpl. unfold bind. rewrite file_step_run. cbv zeta.
      fold (stored_as w s f). rewrite Hsave, Hpublic, Ht.
      rewrite classify_image by (simpl; tauto). reflexivity.
  - intros ms s' Hms. apply calls_snd.
    rewrite push_all_ok; [reflexivity |].
    eapply Forall_impl; [| exact Hms]. simpl. eauto.
Qed.

(** A duration of zero seconds, of either sign, is zero milliseconds. *)
Lemma zero_seconds (D : float) :
  PrimFloat.is_zero D = true -> (PrimFloat.mul D 1000 =? 0)%float = true.
Proof.
  unfold PrimFloat.is_zero. rewrite !FloatAxioms.eqb_spec, FloatAxioms.mul_spec.
  destruct (Prim2SF D) as [sx | sx | | sx mx ex].
  - intros _. destruct sx; vm_compute; reflexivity.
  - destruct sx; vm_compute; discriminate.
  - vm_compute; discriminate.
  - intros H. exfalso. revert H. unfold SFeqb, SFcompare.
    change (Prim2SF PrimFloat.zero) with (S754_zero false).
    destruct sx; discriminate.
Qed.

Example durations :
  duration (Some 1.5%float) = 1500%float /\
  duration (Some 0%float) = 0%float /\
  duration (Some PrimFloat.nan) = 0%float /\
  duration None = 0%float.
Proof. repeat split. Qed.

(** C3.  For a submission with one file that is sniffed as MPEG-4 audio
    and whose metadata is parsed, the second push is an audio message whose
    duration is [duration d], where [d] is the duration that the metadata
    gives: [D * 1000] for a known duration of [D] seconds (for [D] zero the
    code answers 0, which is the number [D * 1000]), and 0 when the
    duration is undetermined. *)
Theorem audio_duration_in_milliseconds (req : Form.Request)
  (f : Form.File) (d : option float) (s : State) :
  Form.files req = Some [f] ->
  fromBuffer w (Form.buffer f) = Some "audio/mp4" \/
  fromBuffer w (Form.buffer f) = Some "audio/x-m4a" ->
  save w (stored_as w s f) (Form.buffer f) = inr tt ->
  makePublic w (stored_as w s f) = inr tt ->
  parseBuffer w (Form.buffer f) = inr d ->
  pushMessage w (groupId w) (first_message req) = inr tt ->
  calls (email w req) s =
  [Save (stored_as w s f) (Form.buffer f);
   MakePublic (stored_as w s f);
   ParseBuffer (Form.buffer f);
   PushMessage (groupId w) (first_message req);
   PushMessage (groupId w)
     (Line.AudioMessage (publicUrl w (stored_as w s f)) (duration d))]
  /\ (forall D,
        d = Some D -> PrimFloat.is_nan D = false ->
        PrimFloat.is_zero D = false ->
        duration d = PrimFloat.mul D 1000)
  /\ (forall D,
        d = Some D -> PrimFloat.is_zero D = true ->
        duration d = 0%float /\ (PrimFloat.mul D 1000 =? 0)%float = true)
  /\ (d = None -> duration d = 0%float).
Proof.
  intros Hf Ht Hsave Hpublic Hparse Hpush. split; [| split; [| split]].
  - assert (Haudio : exists t, fromBuffer w (Form.buffer f) = Some t /\
                               In t ["audio/mp4"; "audio/x-m4a"])
      by (destruct Ht as [-> | ->]; eexists; simpl; eauto).
    destruct Haudio as (t & Et & Hin).
    rewrite (email_calls req [f]
               [first_message req;
                Line.AudioMessage (publicUrl w (stored_as w s f)) (duration d)]
               s (logged (drew s)
                    [Save (stored_as w s f) (Form.buffer f);
                     MakePublic (stored_as w s f);
                     ParseBuffer (Form.buffer f)]) Hf).
    + simpl. unfold file_calls. fold (stored_as w s f).
      rewrite Hpush.
      destruct (pushMessage w (groupId w) (Line.AudioMessage _ _));
        destruct Ht as [-> | ->]; reflexivity.
    + simpl. unfold bind. rewrite file_step_run. cbv zeta.
      fold (stored_as w s f). rewrite Hsave, Hpublic, Et.
      rewrite classify_audio by exact Hin.
      rewrite Hparse, logged_logged. reflexivity.
  - intros D -> Hnan Hzero. unfold duration, truthy_number.
    now rewrite Hnan, Hzero.
  - intros D -> Hzero. unfold duration, truthy_number. rewrite Hzero.
    split; [reflexivity | now apply zero_seconds].
  - now intros ->.
Qed.

(** C8.  A file whose sniffed content type is not one of the six supported
    ones, or could not be determined, leaves the message array as it is: its
    turn of the loop answers the array unchanged, and throws only what the
    upload or the ACL change rejects with.  When the loop of the submission
    goes through, the array is the text message followed by one element per
    supported file among the others, and the text message is the first one
    pushed. *)
Theorem unsupported_file_is_dropped (req : Form.Request)
  (before after : list Form.File) (f : Form.File) (s : State) :
  Form.files req = Some (before ++ f :: after)%list ->
  unsupported (fromBuffer w (Form.buffer f)) ->
  (forall messageArray s1,
      fst (file_step w f messageArray s1) =
      match save w (stored_as w s1 f) (Form.buffer f) with
      | inl r => Throw (Rejected r)
      | inr _ =>
          match makePublic w (stored_as w s1 f) with
          | inl r => Throw (Rejected r)
          | inr _ => Ok messageArray
          end
      end)
  /\ (forall messageArray s',
      for_files w (before ++ f :: after) [first_message req] s =
      (Ok messageArray, s') ->
      exists more later,
        messageArray = first_message req :: more /\
        List.length more =
        List.length
          (filter (fun g => is_supported (fromBuffer w (Form.buffer g)))
             (before ++ after)) /\
        calls (email w req) s =
        (loop_calls w (drawn s) (before ++ f :: after) ++
         PushMessage (groupId w) (first_message req) :: later)%list).
Proof.
  intros Hf Hu. split.
  - intros m s1. rewrite file_step_run. cbv zeta. fold (stored_as w s1 f).
    destruct (save w _ _) as [r | u]; [reflexivity |].
    destruct (makePublic w _) as [r | u']; [reflexivity |].
    now rewrite classify_unsupported.
  - intros m s' Hloop.
    destruct (for_files_ok _ _ _ _ _ Hloop) as (_ & _ & _ & more & -> & Hl).
    exists more. eexists. split; [reflexivity |]. split.
    + rewrite Hl, !filter_app. cbn [filter].
      apply unsupported_iff in Hu. now rewrite Hu.
    + rewrite (email_calls req _ _ s s' Hf Hloop). reflexivity.
Qed.

(** What the [switch] of [file_step] leaves of the state: it makes no call,
    or the one call of the audio clause. *)
Lemma classify_state (file : Buffer) (fileUrl : string)
  (fileType : option string) (messageArray : list Line.Message) (s : State) :
  snd (classify w file fileUrl fileType messageArray s) = s \/
  snd (classify w file fileUrl fileType messageArray s) =
  logged s [ParseBuffer file].
Proof.
  destruct (is_supported fileType) eqn:Hs.
  - destruct fileType as [t |]; [| discriminate].
    destruct (supported_cases t Hs) as [H | [H | H]].
    + rewrite classify_image by exact H. now left.
    + rewrite classify_video by exact H. now left.
    + rewrite classify_audio by exact H. right.
      now destruct (parseBuffer w file).
  - rewrite classify_unsupported by now apply unsupported_iff. now left.
Qed.

(** X3.  Two files of a request are stored under different names as soon
    as their identifiers differ, whatever the names they were sent under:
    identifiers all have the same length, so a name determines its
    identifier. *)
Lemma object_name_fresh (u1 u2 n1 n2 : string) :
  String.length u1 = String.length u2 ->
  object_name u1 n1 = object_name u2 n2 -> u1 = u2.
Proof.
  unfold object_name. intros Hl H.
  assert (Hhead : forall a b c : string, a ++ b = a ++ c -> b = c).
  { induction a as [| x a IH]; simpl; intros b c E; [exact E |].
    injection E as E. eauto. }
  assert (Hsame : forall a b c d : string,
             String.length a = String.length b -> a ++ c = b ++ d -> a = b).
  { induction a as [| x a IH]; destruct b as [| y b]; simpl;
      try discriminate; intros c d Hab Hcd; [reflexivity |].
    injection Hab as Hab. injection Hcd as -> Hcd. f_equal. eauto. }
  apply Hhead in H. eauto.
Qed.

End FormLeg.

Lemma no_file_one_text_message_witness :
  calls (email Example.world (Example.request [])) initial =
  [PushMessage "C4af4980629"
     (Line.TextMessage
        ("From: hana@example.com" ++ LF ++ "Subject: Hi" ++ LF ++ LF ++
         "See you."))].
Proof.
  exact (no_file_one_text_message Example.world "hana@example.com" "Hi"
           "See you." initial).
Defined.

Lemma one_jpeg_two_pushes_witness :
  calls (email Example.world (Example.request [Example.jpeg])) initial =
  [Save (stored_as Example.world initial Example.jpeg)
     (Form.buffer Example.jpeg);
   MakePublic (stored_as Example.world initial Example.jpeg);
   PushMessage "C4af4980629" (first_message (Example.request [Example.jpeg]));
   PushMessage "C4af4980629"
     (Line.ImageMessage
        (publicUrl Example.world (stored_as Example.world initial Example.jpeg))
        (publicUrl Example.world (stored_as Example.world initial Example.jpeg)))].
Proof.
  exact (proj1 (one_jpeg_two_pushes Example.world
                  (Example.request [Example.jpeg]) Example.jpeg initial
                  eq_refl eq_refl eq_refl eq_refl eq_refl)).
Defined.

Lemma audio_duration_in_milliseconds_witness :
  calls (email Example.world (Example.request [Example.m4a])) initial =
  [Save (stored_as Example.world initial Example.m4a) (Form.buffer Example.m4a);
   MakePublic (stored_as Example.world initial Example.m4a);
   ParseBuffer (Form.buffer Example.m4a);
   PushMessage "C4af4980629" (first_message (Example.request [Example.m4a]));
   PushMessage "C4af4980629"
     (Line.AudioMessage
        (publicUrl Example.world (stored_as Example.world initial Example.m4a))
        1500%float)].
Proof.
  exact (proj1 (audio_duration_in_milliseconds Example.world
                  (Example.request [Example.m4a]) Example.m4a
                  (Some 1.5%float) initial
                  eq_refl (or_introl eq_refl) eq_refl eq_refl eq_refl eq_refl)).
Defined.

Lemma unsupported_file_is_dropped_witness :
  unsupported (fromBuffer Example.world (Form.buffer Example.pdf)) /\
  fst (file_step Example.world Example.pdf
         [first_message (Example.request [Example.jpeg; Example.pdf])]
         initial) =
  Ok [first_message (Example.request [Example.jpeg; Example.pdf])] /\
  calls (email Example.world (Example.request [Example.jpeg; Example.pdf]))
    initial =
  [Save "line-to-email/9b1deb4d-3b7d-4bad-9bdd-2b0d7b3dcb6d-photo.jpg"
     (Form.buffer Example.jpeg);
   MakePublic "line-to-email/9b1deb4d-3b7d-4bad-9bdd-2b0d7b3dcb6d-photo.jpg";
   Save "line-to-email/1b9d6bcd-bbfd-4b2d-9b5d-ab8dfbbd4bed-bill.pdf"
     (Form.buffer Example.pdf);
   MakePublic "line-to-email/1b9d6bcd-bbfd-4b2d-9b5d-ab8dfbbd4bed-bill.pdf";
   PushMessage "C4af4980629"
     (first_message (Example.request [Example.jpeg; Example.pdf]));
   PushMessage "C4af4980629"
     (Line.ImageMessage
        (publicUrl Example.world (stored_as Example.world initial Example.jpeg))
        (publicUrl Example.world (stored_as Example.world initial Example.jpeg)))].
Proof.
  assert (Hu : unsupported (fromBuffer Example.world (Form.buffer Example.pdf))).
  { simpl. intros H. decompose [or] H; discriminate || contradiction. }
  pose proof (unsupported_file_is_dropped Example.world
                (Example.request [Example.jpeg; Example.pdf])
                [Example.jpeg] [] Example.pdf initial eq_refl Hu) as [H1 H2].
  split; [exact Hu |]. split; [apply H1 |]. reflexivity.
Defined.

(** ** The webhook leg: every event *)

Section EveryEvent.

Variable w : World.

Lemma kind_cases (kind : string) :
  kind = "text" \/ In kind ["image"; "video"; "audio"; "file"] \/
  kind = "sticker" \/ ~ In kind handled_kinds.
Proof.
  destruct (String.eqb_spec kind "text"); [now left |].
  destruct (String.eqb_spec kind "image"); [subst; simpl; tauto |].
  destruct (String.eqb_spec kind "video"); [subst; simpl; tauto |].
  destruct (String.eqb_spec kind "audio"); [subst; simpl; tauto |].
  destruct (String.eqb_spec kind "file"); [subst; simpl; tauto |].
  destruct (String.eqb_spec kind "sticker"); [now right; right; left |].
  do 3 right. simpl. intros H. decompose [or] H; congruence.
Qed.

(** Every way a message event can go: by greeting, by kind, by what the
    content fetch answers, by what SendGrid answers. *)
Ltac every_way source kind i t s :=
  destruct (kind_cases kind) as [-> | [Hk | [-> | Hk]]];
  [ rewrite text_event_run
  | rewrite (media_event_run w source kind i t s Hk)
  | rewrite sticker_event_run
  | unfold message_event; rewrite unhandled_event_run by exact Hk ];
  unfold bind;
  (destruct (sender_cases w source s)
     as [Hu | uid p Hu Ht Hp | uid r Hu Ht Hp]);
  try match goal with
  | |- context [getContent w i ?s0] =>
      destruct (getContent_cases w i s0) as [r' Hf | f r' Hf Hb | f data Hf Hb]
  end;
  cbv zeta; unfold await, ret;
  repeat match goal with
  | |- context [sgMail_send w ?m] =>
      let Hs := fresh "Hsend" in
      destruct (sgMail_send w m) eqn:Hs
  end;
  (let Heq := fresh "Heq" in
   intros Heq; apply pair_equal_spec in Heq; destruct Heq as [<- <-]);
  rewrite ?logged_logged, ?trace_logged, ?skipn_all.

Ltac which_send H :=
  cbn [List.In List.app] in H; decompose [or] H;
  try discriminate; try contradiction;
  match goal with
  | E : Send ?x = Send ?y |- _ =>
      assert (E' : y = x) by (injection E; auto); subst y; clear E
  end.

(** What there is to know of a message event that hands an e-mail to
    SendGrid. *)
Lemma sending_event (source : Line.EventSource) (message : Line.EventMessage)
  (s s' : State) (o : outcome unit) :
  textEventHandler w (Line.MessageEvent source message) s = (o, s') ->
  forall msg,
    In (Send msg) (skipn (List.length (trace s)) (trace s')) ->
    exists before who rest attachments,
      s' = logged s (before ++ [Send msg]) /\
      existsb is_send before = false /\
      o = match sgMail_send w msg with
          | inl r => Throw (Rejected r)
          | inr _ => Ok tt
          end /\
      msg = mail w ((who ++ "からのメッセージ") ++ LF ++ LF ++ rest) attachments /\
      (who = "ユーザー" /\
       (Line.userId source = None \/ Line.userId source = Some "") \/
       exists uid p,
         Line.userId source = Some uid /\ getProfile w uid = inr p /\
         who = Line.displayName p ++ "さん") /\
      In (Line.type message) handled_kinds.
Proof.
  destruct message as [kind i t].
  change (Line.MessageEvent source
            {| Line.type := kind; Line.id := i; Line.text := t |})
    with (message_event source kind i t).
  every_way source kind i t s; intros msg H; which_send H;
    rewrite Hsend;
    repeat match goal with x : unit |- _ => destruct x end;
    first [ exists []; eexists; eexists; eexists; split; [reflexivity |]
          | eexists [_]; eexists; eexists; eexists; split; [reflexivity |]
          | eexists [_; _]; eexists; eexists; eexists; split; [reflexivity |]
          | eexists [_; _; _]; eexists; eexists; eexists;
            split; [reflexivity |] ];
    (split; [reflexivity |]); (split; [reflexivity |]);
    (split; [reflexivity |]);
    (split; [eauto 8 | simpl in *; tauto]).
Qed.

(** The same, from the calls of the handler. *)
Lemma sending_calls (event : Line.WebhookEvent) (s : State)
  (msg : Mail.MailData) :
  In (Send msg) (calls (textEventHandler w event) s) ->
  exists source message before who rest attachments,
    event = Line.MessageEvent source message /\
    calls (textEventHandler w event) s = (before ++ [Send msg])%list /\
    existsb is_send before = false /\
    fst (textEventHandler w event s) =
    match sgMail_send w msg with
    | inl r => Throw (Rejected r)
    | inr _ => Ok tt
    end /\
    msg = mail w ((who ++ "からのメッセージ") ++ LF ++ LF ++ rest) attachments /\
    (who = "ユーザー" /\
     (Line.userId source = None \/ Line.userId source = Some "") \/
     exists uid p,
       Line.userId source = Some uid /\ getProfile w uid = inr p /\
       who = Line.displayName p ++ "さん") /\
    In (Line.type message) handled_kinds.
Proof.
  destruct event as [source message | ty].
  - intros H.
    destruct (sending_event source message s
                (snd (textEventHandler w (Line.MessageEvent source message) s))
                (fst (textEventHandler w (Line.MessageEvent source message) s))
                (surjective_pairing _) msg H)
      as (before & who & rest & attachments & Hs & H1 & H2 & H3 & H4 & H5).
    exists source, message, before, who, rest, attachments.
    repeat (split; [first [reflexivity | assumption | now apply calls_snd] |]).
    assumption.
  - unfold calls. cbn [textEventHandler ret snd]. rewrite skipn_all.
    intros [].
Qed.

(** X4.  The handler hands an e-mail to SendGrid only for a message event
    whose kind has a [case] of its own: an event that is not a message, or
    a message of another kind (a location, say), never gives an e-mail. *)
Theorem only_handled_kinds_send (event : Line.WebhookEvent) (s : State)
  (msg : Mail.MailData) :
  In (Send msg) (calls (textEventHandler w event) s) ->
  exists source message,
    event = Line.MessageEvent source message /\
    In (Line.type message) handled_kinds.
Proof.
  intros H.
  destruct (sending_calls event s msg H)
    as (source & message & before & who & rest & attachments
        & -> & _ & _ & _ & _ & _ & Hk).
  now exists source, message.
Qed.

(** X5.  An event gives at most one e-mail, and handing it to SendGrid is
    the last thing the handler does: no call follows it, none of the calls
    before it is a send, and the handler completes as the send does, so
    that a rejection by SendGrid is the handler's error. *)
Theorem send_is_last (event : Line.WebhookEvent) (s : State)
  (msg : Mail.MailData) :
  In (Send msg) (calls (textEventHandler w event) s) ->
  exists before,
    calls (textEventHandler w event) s = (before ++ [Send msg])%list /\
    existsb is_send before = false /\
    fst (textEventHandler w event s) =
    match sgMail_send w msg with
    | inl r => Throw (Rejected r)
    | inr _ => Ok tt
    end.
Proof.
  intros H.
  destruct (sending_calls event s msg H)
    as (source & message & before & who & rest & attachments
        & _ & Hc & Hb & Ho & _).
  now exists before.
Qed.

(** X6.  Every e-mail that the handler sends goes to the configured
    recipients, from the fixed address of the relay and under the fixed
    subject; its body starts with the greeting line and a blank line, the
    greeting naming the user by the display name of the profile, or as
    "ユーザー" when the event carries no user id. *)
Theorem mail_envelope (event : Line.WebhookEvent) (s : State)
  (msg : Mail.MailData) :
  In (Send msg) (calls (textEventHandler w event) s) ->
  Mail.to msg = toEmailArray w /\
  Mail.from msg = {| Mail.email := "line@line-to-email.futa.io";
                     Mail.name := "line-to-email" |} /\
  Mail.subject msg = "新着メッセージ" /\
  exists source message who rest,
    event = Line.MessageEvent source message /\
    Mail.text msg = (who ++ "からのメッセージ") ++ LF ++ LF ++ rest /\
    (who = "ユーザー" /\
     (Line.userId source = None \/ Line.userId source = Some "") \/
     exists uid p,
       Line.userId source = Some uid /\ getProfile w uid = inr p /\
       who = Line.displayName p ++ "さん").
Proof.
  intros H.
  destruct (sending_calls event s msg H)
    as (source & message & before & who & rest & attachments
        & -> & _ & _ & _ & -> & Hwho & _).
  repeat (split; [reflexivity |]).
  now exists source, message, who, rest.
Qed.

(** X7.  A sticker event gives an e-mail whose body is the greeting line,
    a blank line and the line "スタンプ", without attachment; nothing is
    fetched for it, and neither the id nor the text of the message is
    used. *)
Theorem sticker_event_email (source : Line.EventSource) (i t : string)
  (s : State) :
  let run := textEventHandler w (message_event source "sticker" i t) in
  (forall uid p,
      Line.userId source = Some uid -> truthy uid = true ->
      getProfile w uid = inr p ->
      calls run s =
      [GetProfile uid;
       Send (mail w ((Line.displayName p ++ "さんからのメッセージ")
                     ++ LF ++ LF ++ "スタンプ") None)])
  /\ (Line.userId source = None \/ Line.userId source = Some "" ->
      calls run s =
      [Send (mail w ("ユーザーからのメッセージ" ++ LF ++ LF ++ "スタンプ") None)]).
Proof.
  cbv zeta. split.
  - intros uid p Hu Ht Hp. apply calls_snd.
    rewrite sticker_event_run. unfold bind.
    rewrite (sender_named_run w source s uid p Hu Ht Hp).
    rewrite await_run, logged_logged, named_greeting. reflexivity.
  - intros Hu. apply calls_snd.
    rewrite sticker_event_run. unfold bind.
    rewrite (sender_anonymous_run w source s Hu).
    rewrite await_run. reflexivity.
Qed.

(** X8.  The three ways a media event can go once the greeting is made.
    When the request to the LINE data API is rejected, that request is the
    last call; when the read of the response body is rejected, the read is;
    in both cases no e-mail is sent and the handler fails with the
    rejection.  When the content is read, the e-mail carries it as its one
    attachment, with the content type of the response and the extension
    that goes with it, and the handler completes as the send does. *)
Theorem media_event_outcomes (source : Line.EventSource) (kind i t : string)
  (who : string) (s s1 : State) :
  In kind ["image"; "video"; "audio"; "file"] ->
  sender w source s = (Ok who, s1) ->
  let run := textEventHandler w (message_event source kind i t) in
  let url := content_url i in
  (forall r,
      fetch_content w i = inl r ->
      run s = (Throw (Rejected r), logged s1 [Fetch url (authorization w)]))
  /\ (forall f r,
      fetch_content w i = inr f -> body_buffer f = inl r ->
      run s =
      (Throw (Rejected r),
       logged s1 [Fetch url (authorization w); ReadBody url]))
  /\ (forall f data,
      fetch_content w i = inr f -> body_buffer f = inr data ->
      let msg :=
        mail w ((who ++ "からのメッセージ") ++ LF ++ LF ++ "画像メッセージ")
          (Some [ {| Mail.content := Base64.encode data;
                     Mail.type := or_else (content_type f) "";
                     Mail.filename :=
                       or_else (mime_extension w (or_else (content_type f) ""))
                         "" |} ]) in
      run s =
      await (Send msg) (sgMail_send w msg)
        (logged s1 [Fetch url (authorization w); ReadBody url])).
Proof.
  intros Hk Hwho. cbv zeta.
  repeat split; intros;
    rewrite (media_event_run w source kind i t s Hk); unfold bind;
    rewrite Hwho;
    destruct (getContent_cases w i s1) as [r' Hf | f' r' Hf Hb | f' data' Hf Hb];
    try congruence.
  assert (f' = f) by congruence. subst f'.
  assert (data' = data) by congruence. subst data'.
  reflexivity.
Qed.

End EveryEvent.

(** ** The webhook leg: what the handler throws, and what it ignores *)

Section BatchErrors.

Variable w : World.

Lemma failures_none (events : list Line.WebhookEvent) :
  failures w events = 0 <-> existsb (fails w) events = false.
Proof.
  unfold failures. induction events as [| e rest IH]; simpl; [tauto |].
  destruct (fails w e); simpl; [| exact IH].
  split; discriminate.
Qed.

Lemma failures_some (events : list Line.WebhookEvent) :
  1 <= failures w events <-> existsb (fails w) events = true.
Proof.
  pose proof (failures_none events) as H.
  destruct (existsb (fails w) events).
  - split; [reflexivity |]. intros _.
    destruct (failures w events); [| lia].
    assert (E : true = false) by now apply H.
    discriminate E.
  - assert (E : failures w events = 0) by now apply H.
    rewrite E. split; [lia | discriminate].
Qed.

(** Once a response has been sent, the callbacks of the events that throw
    reject, and the others answer [undefined]. *)
Lemma gather_after_response (events : list Line.WebhookEvent) (s : State)
  (x : Z * Http.body) :
  Http.sent (res s) = Some x ->
  gather (fst (settle_all (map (on_event w) events) s)) =
  if existsb (fails w) events then Throw ERR_HTTP_HEADERS_SENT
  else Ok (repeat Http.Undefined (List.length events)).
Proof.
  revert s. induction events as [| e rest IH]; intros s Hs; simpl;
    [reflexivity |].
  rewrite on_event_run. unfold fails at 1.
  destruct (fst (effect w e)).
  - specialize (IH (logged s (snd (effect w e))) Hs).
    destruct (settle_all (map (on_event w) rest) _) as [os s2].
    simpl in *. rewrite IH. now destruct (existsb (fails w) rest).
  - destruct (answer_500_sent (logged s (snd (effect w e))) x Hs)
      as (s1 & -> & _).
    destruct (settle_all (map (on_event w) rest) s1) as [os s2].
    reflexivity.
Qed.

(** On a response that has not been sent: with one failing event
    [Promise.all] resolves to an array that holds the response object, with
    more than one it rejects with the error of the second 500 write. *)
Lemma gather_by_count (events : list Line.WebhookEvent) (s : State) :
  Http.sent (res s) = None ->
  (failures w events = 1 ->
   exists l,
     gather (fst (settle_all (map (on_event w) events) s)) = Ok l /\
     existsb Http.is_response l = true)
  /\ (2 <= failures w events ->
      gather (fst (settle_all (map (on_event w) events) s)) =
      Throw ERR_HTTP_HEADERS_SENT).
Proof.
  revert s. induction events as [| e rest IH]; intros s Hs.
  - unfold failures. simpl. split; [discriminate | lia].
  - simpl. rewrite on_event_run.
    assert (Hn : failures w (e :: rest) =
                 (if fails w e then 1 else 0) + failures w rest)
      by (unfold failures; simpl; now destruct (fails w e)).
    rewrite Hn. unfold fails at 1 2.
    destruct (fst (effect w e)).
    + destruct (IH (logged s (snd (effect w e))) Hs) as [IH1 IH2].
      destruct (settle_all (map (on_event w) rest) _) as [os s2].
      simpl in *. split.
      * intros H1. destruct (IH1 H1) as (l & -> & Hl). eauto.
      * intros H2. now rewrite IH2.
    + destruct (answer_500_fresh (logged s (snd (effect w e))) Hs)
        as (s1 & -> & _ & _ & Hx).
      pose proof (gather_after_response rest s1 _ Hx) as Hg.
      destruct (settle_all (map (on_event w) rest) s1) as [os s2].
      simpl in *. rewrite Hg. split; intros H.
      * assert (H0 : failures w rest = 0) by lia.
        apply failures_none in H0. rewrite H0. eauto.
      * assert (H1 : 1 <= failures w rest) by lia.
        apply failures_some in H1. now rewrite H1.
Qed.

(** X9.  What the webhook handler itself throws after the failure of an
    event, on a response not sent before.  With exactly one failing event
    the results hold the response object that its [catch] block answered,
    and the last write fails to serialise them; with two or more, the
    [catch] block of the second one fails on its own write, which rejects
    [Promise.all] and with it the handler. *)
Theorem webhook_error_by_count (events : list Line.WebhookEvent) (s : State) :
  Http.sent (res s) = None ->
  (failures w events = 1 ->
   fst (webhook w events s) = Throw TypeError_circular_structure)
  /\ (2 <= failures w events ->
      fst (webhook w events s) = Throw ERR_HTTP_HEADERS_SENT).
Proof.
  intros Hs. destruct (gather_by_count events s Hs) as [H1 H2].
  split; intros H; rewrite webhook_run.
  - destruct (H1 H) as (l & -> & Hl).
    unfold bind, status, json. cbn [Http.serialisable].
    now rewrite Hl.
  - now rewrite (H2 H).
Qed.

Lemma other_event_effect (event : Line.WebhookEvent) :
  is_message event = false -> effect w event = (Ok tt, []).
Proof. destruct event; [discriminate | reflexivity]. Qed.

(** X10.  Events that are not message events (a follow, a join, ...) are
    ignored: a batch of such events, and the empty batch, make no call to
    any collaborator, and the handler answers 200 with one [undefined]
    result per event. *)
Theorem other_events_are_ignored (events : list Line.WebhookEvent)
  (s : State) :
  Http.sent (res s) = None ->
  existsb is_message events = false ->
  calls (webhook w events) s = [] /\
  fst (webhook w events s) = Ok Http.TheResponse /\
  Http.sent (res (snd (webhook w events s))) =
  Some (200%Z, Http.StatusSuccess (repeat Http.Undefined (List.length events))).
Proof.
  intros Hs H.
  assert (Hq : existsb (fails w) events = false /\
               concat (map (fun e => snd (effect w e)) events) = []).
  { induction events as [| e rest IH]; [split; reflexivity |].
    cbn [existsb] in H. apply orb_false_elim in H. destruct H as [He Hrest].
    destruct (IH Hrest) as [IH1 IH2].
    cbn [existsb map concat]. unfold fails at 1.
    rewrite (other_event_effect e He). cbn [fst snd orb List.app].
    split; assumption. }
  destruct Hq as [Hf Hc].
  split; [now rewrite webhook_calls |].
  now apply webhook_quiet.
Qed.

End BatchErrors.

(** ** The form leg: the message array, and what a rejection leaves *)

Section FormRuns.

Variable w : World.

(** What a turn of the loop that goes through appends. *)
Lemma file_step_element (f : Form.File)
  (messageArray messageArray' : list Line.Message) (s s' : State) :
  file_step w f messageArray s = (Ok messageArray', s') ->
  messageArray' = (messageArray ++ element w (drawn s) f)%list.
Proof.
  rewrite file_step_run. cbv zeta. unfold element.
  destruct (save w _ _) as [r | u]; [discriminate |].
  destruct (makePublic w _) as [r | u']; [discriminate |].
  destruct (is_supported (fromBuffer w (Form.buffer f))) eqn:Hs.
  - destruct (fromBuffer w (Form.buffer f)) as [t |]; [| discriminate].
    destruct (supported_cases t Hs) as [H | [H | H]].
    + rewrite classify_image by exact H. intros [= <- <-].
      simpl in H. decompose [or] H; subst; try contradiction; reflexivity.
    + rewrite classify_video by exact H. intros [= <- <-].
      simpl in H. decompose [or] H; subst; try contradiction; reflexivity.
    + rewrite classify_audio by exact H.
      destruct (parseBuffer w (Form.buffer f)) as [r | d];
        [discriminate |].
      intros [= <- <-].
      simpl in H. decompose [or] H; subst; try contradiction; reflexivity.
  - rewrite classify_unsupported by now apply unsupported_iff.
    intros [= <- <-].
    destruct (fromBuffer w (Form.buffer f)) as [t |];
      [| now rewrite app_nil_r].
    unfold is_supported, supported_types in Hs. cbn [existsb] in Hs.
    repeat (apply orb_false_elim in Hs; destruct Hs as [? Hs]).
    repeat match goal with E : (_ =? _) = false |- _ => rewrite E; clear E end.
    now rewrite app_nil_r.
Qed.

Lemma for_files_elements (fs : list Form.File) :
  forall (messageArray messageArray' : list Line.Message) (s s' : State),
  for_files w fs messageArray s = (Ok messageArray', s') ->
  messageArray' = (messageArray ++ elements w (drawn s) fs)%list.
Proof.
  induction fs as [| f rest IH]; intros m m' s s'; simpl.
  - intros [= <- <-]. now rewrite app_nil_r.
  - unfold bind. destruct (file_step w f m s) as [[m1 | e] s1] eqn:E1;
      [| discriminate].
    intros E2.
    destruct (file_step_ok w f m m1 s s1 E1) as (_ & Hd & _).
    rewrite (IH _ _ _ _ E2), (file_step_element f m m1 s s1 E1), Hd.
    now rewrite app_assoc.
Qed.

(** X11.  When the loop over the files goes through, the array that is
    pushed is the text message followed by the messages of the supported
    files, in the order of the files: an image or a video message whose two
    URLs are the public URL of the object the file was stored as, or an
    audio message with that URL and the duration of the parsed metadata;
    the other files give nothing. *)
Theorem email_messages (req : Form.Request) (fs : list Form.File)
  (messageArray : list Line.Message) (s s' : State) :
  Form.files req = Some fs ->
  for_files w fs [first_message req] s = (Ok messageArray, s') ->
  messageArray = first_message req :: elements w (drawn s) fs /\
  calls (email w req) s =
  (loop_calls w (drawn s) fs ++
   map (PushMessage (groupId w))
     (attempted w (first_message req :: elements w (drawn s) fs)))%list.
Proof.
  intros Hf Hloop.
  pose proof (for_files_elements fs _ _ _ _ Hloop) as E.
  split; [exact E |].
  rewrite (email_calls w req fs messageArray s s' Hf Hloop), E. reflexivity.
Qed.

(** What the last write of the handler does to a response not sent yet. *)
Lemma answer_empty_run (s : State) :
  Http.sent (res s) = None ->
  fst ((status 200 ;; json Http.Empty) s) = Ok Http.TheResponse /\
  Http.sent (res (snd ((status 200 ;; json Http.Empty) s))) =
  Some (200%Z, Http.Empty).
Proof.
  intros H. unfold bind, status, json, Http.headersSent. simpl.
  now rewrite H.
Qed.

Lemma attempted_all (ms : list Line.Message) :
  Forall (fun m => exists u, pushMessage w (groupId w) m = inr u) ms ->
  attempted w ms = ms.
Proof.
  induction 1 as [| m rest [u Hm] _ IH]; simpl; [reflexivity |].
  now rewrite Hm, IH.
Qed.

(** X12.  When the loop goes through and LINE accepts every message, the
    calls are those of the loop followed by one push per message, in the
    order of the array, and the handler answers 200 with an empty body. *)
Theorem email_delivers (req : Form.Request) (fs : list Form.File)
  (messageArray : list Line.Message) (s s' : State) :
  Form.files req = Some fs ->
  for_files w fs [first_message req] s = (Ok messageArray, s') ->
  Forall (fun m => exists u, pushMessage w (groupId w) m = inr u)
    messageArray ->
  Http.sent (res s) = None ->
  calls (email w req) s =
  (loop_calls w (drawn s) fs ++ map (PushMessage (groupId w)) messageArray)%list
  /\ fst (email w req s) = Ok Http.TheResponse
  /\ Http.sent (res (snd (email w req s))) = Some (200%Z, Http.Empty).
Proof.
  intros Hf Hloop Hpush Hs. split.
  - rewrite (email_calls w req fs messageArray s s' Hf Hloop).
    now rewrite attempted_all.
  - destruct (for_files_ok w fs _ _ _ _ Hloop) as (_ & _ & Hr & _).
    assert (E : email w req s =
                (status 200 ;; json Http.Empty)
                  (logged s' (map (PushMessage (groupId w)) messageArray))).
    { unfold email. rewrite Hf. unfold bind at 1. rewrite Hloop.
      unfold bind at 1. now rewrite (push_all_ok w messageArray s' Hpush). }
    rewrite E. apply answer_empty_run. cbn [res logged]. now rewrite Hr.
Qed.

(** The pushes up to a rejected one. *)
Lemma push_all_rejected (front back : list Line.Message) (m : Line.Message)
  (r : rejection) (s : State) :
  Forall (fun m => exists u, pushMessage w (groupId w) m = inr u) front ->
  pushMessage w (groupId w) m = inl r ->
  push_all w (front ++ m :: back) s =
  (Throw (Rejected r),
   logged s (map (PushMessage (groupId w)) (front ++ [m]))).
Proof.
  intros H Hm. revert s.
  induction H as [| x rest [u Hx] _ IH]; intros s; simpl.
  - unfold bind, await. now rewrite Hm.
  - unfold bind, await. rewrite Hx, IH, logged_logged. reflexivity.
Qed.

(** X13.  When LINE rejects a message, the handler fails with that
    rejection: the messages before it have been pushed, those after it are
    not, and no response is written. *)
Theorem push_rejection_stops (req : Form.Request) (fs : list Form.File)
  (front back : list Line.Message) (m : Line.Message) (r : rejection)
  (s s' : State) :
  Form.files req = Some fs ->
  for_files w fs [first_message req] s = (Ok (front ++ m :: back)%list, s') ->
  Forall (fun m => exists u, pushMessage w (groupId w) m = inr u) front ->
  pushMessage w (groupId w) m = inl r ->
  email w req s =
  (Throw (Rejected r),
   logged s' (map (PushMessage (groupId w)) (front ++ [m])))
  /\ calls (email w req) s =
     (loop_calls w (drawn s) fs ++
      map (PushMessage (groupId w)) (front ++ [m]))%list
  /\ res (snd (email w req s)) = res s.
Proof.
  intros Hf Hloop Hfront Hm.
  destruct (for_files_ok w fs _ _ _ _ Hloop) as (Ht & _ & Hr & _).
  assert (E : email w req s =
              (Throw (Rejected r),
               logged s' (map (PushMessage (groupId w)) (front ++ [m])))).
  { unfold email. rewrite Hf. unfold bind at 1. rewrite Hloop.
    unfold bind at 1. now rewrite (push_all_rejected front back m r s'). }
  split; [exact E |]. split.
  - apply calls_trace. rewrite E. cbn [snd logged trace].
    now rewrite Ht, app_assoc.
  - rewrite E. exact Hr.
Qed.

(** The loop makes no push and leaves the response alone, also when it
    throws. *)
Lemma file_step_quiet (f : Form.File) (messageArray : list Line.Message)
  (s : State) :
  exists cs,
    trace (snd (file_step w f messageArray s)) = (trace s ++ cs)%list /\
    existsb is_push cs = false /\
    res (snd (file_step w f messageArray s)) = res s.
Proof.
  rewrite file_step_run. cbv zeta.
  destruct (save w _ _) as [r | u]; [eexists [_]; repeat split |].
  destruct (makePublic w _) as [r | u']; [eexists [_; _]; repeat split |].
  match goal with
  | |- context [classify w ?file ?url ?ty ?m ?s0] =>
      destruct (classify_state w file url ty m s0) as [-> | ->]
  end.
  - eexists [_; _]. repeat split.
  - rewrite logged_logged. eexists [_; _; _]. repeat split.
Qed.

Lemma for_files_quiet (fs : list Form.File) :
  forall (messageArray : list Line.Message) (s : State),
  exists cs,
    trace (snd (for_files w fs messageArray s)) = (trace s ++ cs)%list /\
    existsb is_push cs = false /\
    res (snd (for_files w fs messageArray s)) = res s.
Proof.
  induction fs as [| f rest IH]; intros m s; simpl.
  - exists []. now rewrite app_nil_r.
  - unfold bind.
    destruct (file_step_quiet f m s) as (cs1 & Ht1 & Hp1 & Hr1).
    destruct (file_step w f m s) as [[m1 | e] s1]; simpl in *.
    + destruct (IH m1 s1) as (cs2 & Ht2 & Hp2 & Hr2).
      exists (cs1 ++ cs2)%list.
      rewrite Ht2, Ht1, Hr2, Hr1, app_assoc, existsb_app, Hp1, Hp2.
      repeat split.
    + now exists cs1.
Qed.

(** X14.  When the loop over the files throws (the upload of a file, the
    ACL change or the parse of an audio file is rejected), the handler
    fails with the same error: nothing is pushed to LINE, not even the text
    message, and no response is written. *)
Theorem storage_failure_pushes_nothing (req : Form.Request)
  (fs : list Form.File) (e : error) (s : State) :
  Form.files req = Some fs ->
  fst (for_files w fs [first_message req] s) = Throw e ->
  fst (email w req s) = Throw e /\
  existsb is_push (calls (email w req) s) = false /\
  res (snd (email w req s)) = res s.
Proof.
  intros Hf Hloop.
  destruct (for_files_quiet fs [first_message req] s) as (cs & Ht & Hp & Hr).
  assert (E : email w req s =
              (Throw e, snd (for_files w fs [first_message req] s))).
  { unfold email. rewrite Hf. unfold bind at 1.
    destruct (for_files w fs [first_message req] s) as [o s1].
    simpl in Hloop. now subst o. }
  rewrite E. cbn [fst snd]. repeat split; [| exact Hr].
  rewrite (calls_trace (email w req) s cs); [exact Hp |].
  now rewrite E.
Qed.

(** The loop over two lists of files, one after the other. *)
Lemma for_files_app (front back : list Form.File) :
  forall (messageArray : list Line.Message) (s : State),
  for_files w (front ++ back) messageArray s =
  (messageArray' <- for_files w front messageArray ;;
   for_files w back messageArray') s.
Proof.
  induction front as [| f rest IH]; intros m s; [reflexivity |].
  cbn [for_files List.app]. unfold bind.
  destruct (file_step w f m s) as [[m1 | e] s1]; [| reflexivity].
  rewrite IH. reflexivity.
Qed.

(** The one call that the [switch] of a turn can make is the parse of an
    audio file. *)
Lemma classify_trace (file : Buffer) (fileUrl : string)
  (fileType : option string) (messageArray : list Line.Message) (s : State) :
  snd (classify w file fileUrl fileType messageArray s) =
  logged s (if is_audio fileType then [ParseBuffer file] else []).
Proof.
  destruct (is_supported fileType) eqn:Hs.
  - destruct fileType as [t |]; [| discriminate].
    destruct (supported_cases t Hs) as [H | [H | H]].
    + rewrite classify_image by exact H.
      simpl in H. decompose [or] H; subst; try contradiction;
        cbn [snd]; now rewrite logged_nil.
    + rewrite classify_video by exact H.
      simpl in H. decompose [or] H; subst; try contradiction;
        cbn [snd]; now rewrite logged_nil.
    + rewrite classify_audio by exact H.
      simpl in H. decompose [or] H; subst; try contradiction;
        now destruct (parseBuffer w file).
  - rewrite classify_unsupported by now apply unsupported_iff.
    rewrite (unsupported_not_audio _ Hs). cbn [snd]. now rewrite logged_nil.
Qed.

(** What follows a turn of the loop only adds to the trace. *)
Lemma remainder_trace (after : list Form.File)
  (messageArray : list Line.Message) (s : State) :
  exists cs,
    trace (snd ((messageArray' <- for_files w after messageArray ;;
                 push_all w messageArray' ;;
                 status 200 ;;
                 json Http.Empty) s)) =
    (trace s ++ cs)%list.
Proof.
  unfold bind at 1.
  destruct (for_files_quiet after messageArray s) as (cs1 & Ht1 & _).
  destruct (for_files w after messageArray s) as [[m1 | e] s1];
    cbn [snd] in Ht1; [| now exists cs1].
  unfold bind at 1.
  pose proof (push_all_run w m1 s1) as Hp.
  destruct (push_all w m1 s1) as [[u | e] s2]; cbn [snd] in Hp; subst s2.
  - rewrite answer_empty_trace. cbn [trace logged]. rewrite Ht1, <- app_assoc.
    eauto.
  - cbn [snd trace logged]. rewrite Ht1, <- app_assoc. eauto.
Qed.

(** The handler from the turn of a file on, when the turns of the files
    before it have gone through. *)
Lemma email_from (req : Form.Request) (before after : list Form.File)
  (f : Form.File) (messageArray : list Line.Message) (s s1 : State) :
  Form.files req = Some (before ++ f :: after)%list ->
  for_files w before [first_message req] s = (Ok messageArray, s1) ->
  email w req s =
  (messageArray' <- file_step w f messageArray ;;
   messageArray'' <- for_files w after messageArray' ;;
   push_all w messageArray'' ;;
   status 200 ;;
   json Http.Empty) s1.
Proof.
  intros Hf Hloop. unfold email. rewrite Hf.
  unfold bind at 1. rewrite for_files_app. unfold bind at 1.
  rewrite Hloop. cbn [for_files]. unfold bind.
  destruct (file_step w f messageArray s1) as [[m1 | e] s2]; [| reflexivity].
  destruct (for_files w after m1 s2) as [[m2 | e] s3]; reflexivity.
Qed.

Lemma loop_calls_app (front back : list Form.File) :
  forall n,
  loop_calls w n (front ++ back) =
  (loop_calls w n front ++ loop_calls w (n + List.length front) back)%list.
Proof.
  induction front as [| f rest IH]; intros n; cbn [loop_calls List.app].
  - now rewrite Nat.add_0_r.
  - rewrite IH, <- app_assoc. cbn [List.length].
    now rewrite Nat.add_succ_r.
Qed.

(** C9.  Every file of a submission that the handler comes to (the turns of
    the files before it have gone through) is stored, whatever its sniffed
    content type, also when the type is unsupported or undetermined: after
    the calls of the files before it, the handler saves the buffer under the
    name made of an identifier drawn for this file, and, when the save is
    accepted, makes the object public with the next call.  A rejection of
    either call is the handler's error.  Only then comes the
    classification, whose one possible call is the parse of an audio
    file.  So when the loop of the submission goes through, the handler
    has saved and made public every file, also those of which nothing is
    pushed. *)
Theorem every_file_is_stored (req : Form.Request)
  (before after : list Form.File) (f : Form.File)
  (messageArray : list Line.Message) (s s1 : State) :
  Form.files req = Some (before ++ f :: after)%list ->
  for_files w before [first_message req] s = (Ok messageArray, s1) ->
  let name :=
    object_name (uuidv4 w (drawn s + List.length before))
      (Form.originalname f) in
  (exists later,
     calls (email w req) s =
     (loop_calls w (drawn s) before ++ Save name (Form.buffer f) :: later)%list
     /\ match save w name (Form.buffer f) with
        | inl r => later = [] /\ fst (email w req s) = Throw (Rejected r)
        | inr _ =>
            exists later',
              later = MakePublic name :: later' /\
              match makePublic w name with
              | inl r =>
                  later' = [] /\ fst (email w req s) = Throw (Rejected r)
              | inr _ =>
                  exists rest,
                    later' =
                    if is_audio (fromBuffer w (Form.buffer f))
                    then ParseBuffer (Form.buffer f) :: rest
                    else rest
              end
        end)
  /\ (forall messageArray' s',
        for_files w (before ++ f :: after) [first_message req] s =
        (Ok messageArray', s') ->
        In (Save name (Form.buffer f)) (calls (email w req) s) /\
        In (MakePublic name) (calls (email w req) s)).
Proof.
  intros Hf Hloop. cbv zeta. split.
  2: { intros m' s' Hall.
       rewrite (email_calls w req _ m' s s' Hf Hall), loop_calls_app.
       cbn [loop_calls]. unfold file_calls.
       split; apply in_or_app; left; apply in_or_app; right;
         cbn [List.In List.app]; tauto. }
  destruct (for_files_ok w before _ _ _ _ Hloop) as (Ht & Hd & _).
  rewrite <- Hd.
  assert (Hcalls : forall cs,
             trace (snd (email w req s)) = (trace s1 ++ cs)%list ->
             calls (email w req) s = (loop_calls w (drawn s) before ++ cs)%list).
  { intros cs E. apply calls_trace. now rewrite E, Ht, app_assoc. }
  pose proof (email_from req before after f messageArray s s1 Hf Hloop) as E.
  unfold bind at 1 in E. rewrite file_step_run in E. cbv zeta in E.
  revert E. destruct (save w _ _) as [r | u].
  - intros E. exists []. rewrite E in *.
    split; [now apply Hcalls | now split].
  - destruct (makePublic w _) as [r | u'].
    + intros E. eexists. rewrite E in *.
      split; [now apply Hcalls |]. exists []. now repeat split.
    + pose proof (classify_trace (Form.buffer f)
                    (publicUrl w (object_name (uuidv4 w (drawn s1))
                                    (Form.originalname f)))
                    (fromBuffer w (Form.buffer f)) messageArray
                    (logged (drew s1)
                       [Save (object_name (uuidv4 w (drawn s1))
                                (Form.originalname f)) (Form.buffer f);
                        MakePublic (object_name (uuidv4 w (drawn s1))
                                      (Form.originalname f))])) as Hc.
      revert Hc.
      destruct (classify w _ _ _ _ _) as [[m1 | e] s2]; cbn [snd];
        intros -> E.
      * destruct (remainder_trace after m1
                    (logged
                       (logged (drew s1)
                          [Save (object_name (uuidv4 w (drawn s1))
                                   (Form.originalname f)) (Form.buffer f);
                           MakePublic (object_name (uuidv4 w (drawn s1))
                                         (Form.originalname f))])
                       (if is_audio (fromBuffer w (Form.buffer f))
                        then [ParseBuffer (Form.buffer f)] else [])))
          as (cs & Hcs).
        eexists. split.
        -- apply Hcalls. rewrite E, Hcs. cbn [trace logged drew].
           rewrite <- !app_assoc. reflexivity.
        -- eexists. split; [reflexivity |]. exists cs.
           now destruct (is_audio _).
      * eexists. split.
        -- apply Hcalls. rewrite E. cbn [snd trace logged drew].
           rewrite <- !app_assoc. reflexivity.
        -- eexists. split; [reflexivity |]. exists [].
           now destruct (is_audio _).
Qed.

End FormRuns.

(** A PDF file, of which nothing is pushed, is stored and made public after
    the JPEG file that comes before it. *)
Lemma every_file_is_stored_witness :
  exists later,
    calls (email Example.world (Example.request [Example.jpeg; Example.pdf]))
      initial =
    (loop_calls Example.world 0 [Example.jpeg] ++
     Save "line-to-email/1b9d6bcd-bbfd-4b2d-9b5d-ab8dfbbd4bed-bill.pdf"
       (Form.buffer Example.pdf) :: later)%list /\
    exists later',
      later =
      MakePublic "line-to-email/1b9d6bcd-bbfd-4b2d-9b5d-ab8dfbbd4bed-bill.pdf"
      :: later' /\
      exists rest, later' = rest.
Proof.
  exact (proj1 (every_file_is_stored Example.world
           (Example.request [Example.jpeg; Example.pdf])
           [Example.jpeg] [] Example.pdf
           [first_message (Example.request [Example.jpeg; Example.pdf]);
            Line.ImageMessage
              (publicUrl Example.world
                 (stored_as Example.world initial Example.jpeg))
              (publicUrl Example.world
                 (stored_as Example.world initial Example.jpeg))]
           initial
           (snd (for_files Example.world [Example.jpeg]
                   [first_message
                      (Example.request [Example.jpeg; Example.pdf])]
                   initial))
           eq_refl eq_refl)).
Defined.

(** ** The recipients *)

Module ConfigFacts.

Import Config.

Lemma split_cons (sep : ascii) (s : string) :
  exists piece pieces, split sep s = piece :: pieces.
Proof.
  induction s as [| c rest (piece & pieces & IH)]; simpl; [eauto |].
  destruct (Ascii.eqb c sep); [eauto |]. rewrite IH. eauto.
Qed.

Lemma concat_split (sep : ascii) (s : string) :
  String.concat (String sep "") (split sep s) = s.
Proof.
  induction s as [| c rest IH]; simpl; [reflexivity |].
  destruct (split_cons sep rest) as (piece & pieces & E).
  rewrite E in *.
  destruct (Ascii.eqb_spec c sep) as [-> | _].
  - change (String.concat (String sep "") ("" :: piece :: pieces))
      with ("" ++ String sep "" ++
            String.concat (String sep "") (piece :: pieces)).
    now rewrite IH.
  - destruct pieces as [| p ps]; [simpl in *; now rewrite IH |].
    change (String.concat (String sep "") (String c piece :: p :: ps))
      with (String c (piece ++ String sep "" ++
                      String.concat (String sep "") (p :: ps))).
    f_equal. exact IH.
Qed.

Lemma length_split (sep : ascii) (s : string) :
  List.length (split sep s) = S (occurrences sep s).
Proof.
  induction s as [| c rest IH]; simpl; [reflexivity |].
  destruct (split_cons sep rest) as (piece & pieces & E).
  rewrite E in *.
  destruct (Ascii.eqb c sep); simpl in *; lia.
Qed.

(** The pieces hold what the string holds, the separator apart. *)
Lemma split_pieces (p : ascii -> bool) (sep : ascii) (s : string) :
  forallb p (list_ascii_of_string s) = true ->
  Forall (fun piece =>
            forallb (fun c => p c && negb (Ascii.eqb c sep))
              (list_ascii_of_string piece) = true)
    (split sep s).
Proof.
  induction s as [| c rest IH]; simpl; [repeat constructor |].
  intros H. apply andb_prop in H. destruct H as [Hc Hrest].
  specialize (IH Hrest).
  destruct (split_cons sep rest) as (piece & pieces & E).
  rewrite E in *.
  destruct (Ascii.eqb c sep) eqn:Ec.
  - constructor; [reflexivity | exact IH].
  - inversion IH as [| ? ? Hp Hps]; subst.
    constructor; [| exact Hps]. simpl. now rewrite Hc, Ec, Hp.
Qed.

(** Nothing that [replace_whitespace] keeps is a white space of one
    byte. *)
Lemma replace_whitespace_white1 (s : string) :
  forallb (fun c => negb (white1 c))
    (list_ascii_of_string (replace_whitespace s)) = true.
Proof.
  assert (H : forall n s, String.length s <= n ->
              forallb (fun c => negb (white1 c))
                (list_ascii_of_string (replace_whitespace s)) = true).
  { clear s. induction n as [| n IH]; intros s Hn.
    - destruct s; [reflexivity | simpl in Hn; lia].
    - destruct s as [| c1 rest]; [reflexivity |].
      simpl in Hn. cbn [replace_whitespace].
      destruct (white1 c1) eqn:E1; [apply IH; lia |].
      destruct rest as [| c2 rest2]; [simpl; now rewrite E1 |].
      simpl in Hn.
      destruct (white2 c1 c2); [apply IH; lia |].
      destruct rest2 as [| c3 rest3].
      + cbn [list_ascii_of_string forallb]. rewrite E1.
        apply (IH (String c2 "")). simpl. lia.
      + simpl in Hn. destruct (white3 c1 c2 c3); [apply IH; lia |].
        cbn [list_ascii_of_string forallb]. rewrite E1.
        apply (IH (String c2 (String c3 rest3))). simpl. lia. }
  now apply (H (String.length s)).
Qed.

Lemma ascii_not_white2 (c1 c2 : ascii) :
  nat_of_ascii c1 < 128 -> white2 c1 c2 = false.
Proof.
  intros H. unfold white2.
  replace (nat_of_ascii c1 =? 194)%nat with false
    by (symmetry; apply Nat.eqb_neq; lia).
  reflexivity.
Qed.

Lemma ascii_not_white3 (c1 c2 c3 : ascii) :
  nat_of_ascii c1 < 128 -> white3 c1 c2 c3 = false.
Proof.
  intros H. unfold white3. cbv zeta.
  replace (nat_of_ascii c1 =? 225)%nat with false
    by (symmetry; apply Nat.eqb_neq; lia).
  replace (nat_of_ascii c1 =? 226)%nat with false
    by (symmetry; apply Nat.eqb_neq; lia).
  replace (nat_of_ascii c1 =? 227)%nat with false
    by (symmetry; apply Nat.eqb_neq; lia).
  replace (nat_of_ascii c1 =? 239)%nat with false
    by (symmetry; apply Nat.eqb_neq; lia).
  reflexivity.
Qed.

(** On ASCII, [/\s/] is the white space of one byte. *)
Lemma replace_whitespace_ascii (s : string) :
  ascii_only s = true -> replace_whitespace s = remove_white1 s.
Proof.
  unfold ascii_only.
  induction s as [| c1 rest IH]; [reflexivity |].
  cbn [list_ascii_of_string forallb]. intros H.
  apply andb_prop in H. destruct H as [H1 Hrest].
  apply Nat.ltb_lt in H1. specialize (IH Hrest).
  cbn [replace_whitespace remove_white1].
  destruct (white1 c1); [exact IH |].
  destruct rest as [| c2 rest2]; [reflexivity |].
  rewrite (ascii_not_white2 c1 c2 H1).
  destruct rest2 as [| c3 rest3]; [now rewrite IH |].
  rewrite (ascii_not_white3 c1 c2 c3 H1). now rewrite IH.
Qed.

End ConfigFacts.

(** X15.  The recipients are the pieces of [TOEMAIL], white space removed,
    between its commas: joined with commas they give that string back, and
    there is one more of them than there are commas.  So there is always at
    least one recipient: when [TOEMAIL] is unset, empty or blank, it is the
    empty string. *)
Theorem recipients_are_the_pieces (TOEMAIL : option string) :
  let stripped := Config.replace_whitespace (Config.toEmailString TOEMAIL) in
  String.concat "," (Config.toEmailArray TOEMAIL) = stripped /\
  List.length (Config.toEmailArray TOEMAIL) =
  S (Config.occurrences ","%char stripped) /\
  (stripped = "" -> Config.toEmailArray TOEMAIL = [""]).
Proof.
  cbv zeta. unfold Config.toEmailArray. split; [| split].
  - apply ConfigFacts.concat_split.
  - apply ConfigFacts.length_split.
  - now intros ->.
Qed.

(** X16.  No recipient holds a comma, a space, a tab or a line end. *)
Theorem recipients_are_clean (TOEMAIL : option string) :
  Forall (fun address => Config.clean address = true)
    (Config.toEmailArray TOEMAIL).
Proof.
  unfold Config.toEmailArray.
  pose proof (ConfigFacts.split_pieces _ ","%char _
                (ConfigFacts.replace_whitespace_white1
                   (Config.toEmailString TOEMAIL))) as H.
  eapply Forall_impl; [| exact H].
  intros address. clear H.
  induction address as [| c rest IH]; simpl; [reflexivity |].
  intros H. apply andb_prop in H. destruct H as [Hc Hrest].
  apply andb_prop in Hc. destruct Hc as [H1 H2].
  now rewrite H1, H2, IH.
Qed.

(** X17.  When [TOEMAIL] is ASCII, as e-mail addresses are, the recipients
    are the pieces, between its commas, of [TOEMAIL] without its spaces,
    tabs and line ends: every other character is kept, in place. *)
Theorem recipients_of_ascii (TOEMAIL : option string) :
  Config.ascii_only (Config.toEmailString TOEMAIL) = true ->
  Config.toEmailArray TOEMAIL =
  Config.split ","%char (Config.remove_white1 (Config.toEmailString TOEMAIL)).
Proof.
  intros H. unfold Config.toEmailArray.
  now rewrite ConfigFacts.replace_whitespace_ascii.
Qed.

Example recipients :
  Config.toEmailArray (Some "desk@example.com,　hana@example.com") =
  ["desk@example.com"; "hana@example.com"] /\
  Config.toEmailArray (Some ("a@example.com," ++ LF ++ "  b@example.com,")) =
  ["a@example.com"; "b@example.com"; ""] /\
  Config.toEmailArray None = [""].
Proof. repeat split. Qed.

(** ** Runs in the two worlds *)

Lemma media_event_attachment_witness :
  exists a f data,
    fetch_content Example.world "42" = inr f /\ body_buffer f = inr data /\
    Mail.attachments Example.video_mail = Some [a] /\
    Mail.content a = Base64.encode data /\
    Base64.decode (Mail.content a) = Some data.
Proof.
  assert (Hk : In "video" ["image"; "video"; "audio"; "file"])
    by (simpl; tauto).
  assert (H : In (Send Example.video_mail)
                (calls (textEventHandler Example.world Example.video) initial))
    by (vm_compute; do 3 right; left; reflexivity).
  exact (media_event_attachment Example.world Example.known "video" "42" ""
           initial Example.video_mail Hk H).
Defined.

Lemma batch_order_witness :
  Permutation
    (calls (webhook Example.world
              [Example.hello; Example.lost; Example.sticker]) initial)
    (calls (webhook Example.world
              [Example.sticker; Example.hello; Example.lost]) initial) /\
  Http.sent (res (snd (webhook Example.world
                         [Example.hello; Example.lost; Example.sticker]
                         initial))) =
  Http.sent (res (snd (webhook Example.world
                         [Example.sticker; Example.hello; Example.lost]
                         initial))).
Proof.
  apply (batch_order Example.world
           [Example.hello; Example.lost; Example.sticker]
           [Example.sticker; Example.hello; Example.lost] initial eq_refl).
  apply Permutation_sym.
  exact (Permutation_cons_append [Example.hello; Example.lost] Example.sticker).
Defined.

Lemma object_name_fresh_witness :
  object_name (uuidv4 Example.world 0) "photo.jpg" =
  object_name (uuidv4 Example.world 0) "photo.jpg" /\
  uuidv4 Example.world 0 = uuidv4 Example.world 0.
Proof.
  split; [reflexivity |].
  exact (object_name_fresh (uuidv4 Example.world 0) (uuidv4 Example.world 0)
           "photo.jpg" "photo.jpg" eq_refl eq_refl).
Defined.

Lemma only_handled_kinds_send_witness :
  In (Send Example.video_mail)
    (calls (textEventHandler Example.world Example.video) initial) /\
  exists source message,
    Example.video = Line.MessageEvent source message /\
    In (Line.type message) handled_kinds.
Proof.
  assert (H : In (Send Example.video_mail)
                (calls (textEventHandler Example.world Example.video) initial))
    by (vm_compute; do 3 right; left; reflexivity).
  split; [exact H |].
  exact (only_handled_kinds_send Example.world Example.video initial
           Example.video_mail H).
Defined.

Lemma send_is_last_witness :
  In (Send Outage.hello_mail)
    (calls (textEventHandler Outage.world Example.hello) initial) /\
  exists before,
    calls (textEventHandler Outage.world Example.hello) initial =
    (before ++ [Send Outage.hello_mail])%list /\
    existsb is_send before = false /\
    fst (textEventHandler Outage.world Example.hello initial) =
    Throw (Rejected (ApiError "401 Unauthorized")).
Proof.
  assert (H : In (Send Outage.hello_mail)
                (calls (textEventHandler Outage.world Example.hello) initial))
    by (vm_compute; left; reflexivity).
  split; [exact H |].
  exact (send_is_last Outage.world Example.hello initial Outage.hello_mail H).
Defined.

Lemma mail_envelope_witness :
  Mail.to Example.video_mail = ["desk@example.com"] /\
  Mail.from Example.video_mail =
  {| Mail.email := "line@line-to-email.futa.io";
     Mail.name := "line-to-email" |} /\
  Mail.subject Example.video_mail = "新着メッセージ" /\
  exists source message who rest,
    Example.video = Line.MessageEvent source message /\
    Mail.text Example.video_mail =
    (who ++ "からのメッセージ") ++ LF ++ LF ++ rest /\
    (who = "ユーザー" /\
     (Line.userId source = None \/ Line.userId source = Some "") \/
     exists uid p,
       Line.userId source = Some uid /\
       getProfile Example.world uid = inr p /\
       who = Line.displayName p ++ "さん").
Proof.
  assert (H : In (Send Example.video_mail)
                (calls (textEventHandler Example.world Example.video) initial))
    by (vm_compute; do 3 right; left; reflexivity).
  exact (mail_envelope Example.world Example.video initial
           Example.video_mail H).
Defined.

Lemma media_event_outcomes_witness :
  textEventHandler Outage.world (message_event Example.known "image" "42" "")
    initial =
  (Throw (Rejected (ApiError "ETIMEDOUT")),
   logged initial
     [GetProfile "U-hana";
      Fetch "https://api-data.line.me/v2/bot/message/42/content"
        "Bearer undefined"]).
Proof.
  assert (Hk : In "image" ["image"; "video"; "audio"; "file"])
    by (simpl; tauto).
  exact (proj1 (media_event_outcomes Outage.world Example.known "image" "42" ""
                  "Hanaさん" initial (logged initial [GetProfile "U-hana"])
                  Hk eq_refl)
           (ApiError "ETIMEDOUT") eq_refl).
Defined.

Lemma webhook_error_by_count_witness :
  fst (webhook Example.world [Example.hello; Example.lost; Example.sticker]
         initial) =
  Throw TypeError_circular_structure /\
  fst (webhook Example.world [Example.lost; Example.hello; Example.lost]
         initial) =
  Throw ERR_HTTP_HEADERS_SENT.
Proof.
  split.
  - exact (proj1 (webhook_error_by_count Example.world
                    [Example.hello; Example.lost; Example.sticker] initial
                    eq_refl) eq_refl).
  - apply (webhook_error_by_count Example.world
             [Example.lost; Example.hello; Example.lost] initial eq_refl).
    vm_compute. lia.
Defined.

Lemma other_events_are_ignored_witness :
  calls (webhook Outage.world [Outage.follow; Outage.join]) initial = [] /\
  fst (webhook Outage.world [Outage.follow; Outage.join] initial) =
  Ok Http.TheResponse /\
  Http.sent (res (snd (webhook Outage.world [Outage.follow; Outage.join]
                         initial))) =
  Some (200%Z, Http.StatusSuccess [Http.Undefined; Http.Undefined]).
Proof.
  exact (other_events_are_ignored Outage.world [Outage.follow; Outage.join]
           initial eq_refl eq_refl).
Defined.

Lemma email_messages_witness :
  [first_message (Example.request [Example.jpeg; Example.pdf; Example.m4a]);
   Line.ImageMessage
     (publicUrl Example.world
        "line-to-email/9b1deb4d-3b7d-4bad-9bdd-2b0d7b3dcb6d-photo.jpg")
     (publicUrl Example.world
        "line-to-email/9b1deb4d-3b7d-4bad-9bdd-2b0d7b3dcb6d-photo.jpg");
   Line.AudioMessage
     (publicUrl Example.world
        "line-to-email/1b9d6bcd-bbfd-4b2d-9b5d-ab8dfbbd4bed-memo.m4a")
     1500%float] =
  first_message (Example.request [Example.jpeg; Example.pdf; Example.m4a]) ::
  elements Example.world 0 [Example.jpeg; Example.pdf; Example.m4a] /\
  calls (email Example.world
           (Example.request [Example.jpeg; Example.pdf; Example.m4a]))
    initial =
  (loop_calls Example.world 0 [Example.jpeg; Example.pdf; Example.m4a] ++
   map (PushMessage "C4af4980629")
     (attempted Example.world
        (first_message
           (Example.request [Example.jpeg; Example.pdf; Example.m4a]) ::
         elements Example.world 0
           [Example.jpeg; Example.pdf; Example.m4a])))%list.
Proof.
  exact (email_messages Example.world
           (Example.request [Example.jpeg; Example.pdf; Example.m4a])
           [Example.jpeg; Example.pdf; Example.m4a] _ initial
           (snd (for_files Example.world
                   [Example.jpeg; Example.pdf; Example.m4a]
                   [first_message
                      (Example.request
                         [Example.jpeg; Example.pdf; Example.m4a])]
                   initial))
           eq_refl eq_refl).
Defined.

Lemma email_delivers_witness :
  calls (email Example.world (Example.request [Example.jpeg; Example.m4a]))
    initial =
  (loop_calls Example.world 0 [Example.jpeg; Example.m4a] ++
   map (PushMessage "C4af4980629")
     (first_message (Example.request [Example.jpeg; Example.m4a]) ::
      elements Example.world 0 [Example.jpeg; Example.m4a]))%list /\
  fst (email Example.world (Example.request [Example.jpeg; Example.m4a])
         initial) =
  Ok Http.TheResponse /\
  Http.sent (res (snd (email Example.world
                         (Example.request [Example.jpeg; Example.m4a])
                         initial))) =
  Some (200%Z, Http.Empty).
Proof.
  apply (email_delivers Example.world
           (Example.request [Example.jpeg; Example.m4a])
           [Example.jpeg; Example.m4a]
           (first_message (Example.request [Example.jpeg; Example.m4a]) ::
            elements Example.world 0 [Example.jpeg; Example.m4a])
           initial
           (snd (for_files Example.world [Example.jpeg; Example.m4a]
                   [first_message
                      (Example.request [Example.jpeg; Example.m4a])]
                   initial))
           eq_refl eq_refl).
  - repeat (constructor; [now exists tt |]). constructor.
  - reflexivity.
Defined.

Lemma push_rejection_stops_witness :
  calls (email Outage.world (Example.request [Example.jpeg; Example.m4a]))
    initial =
  (loop_calls Outage.world 0 [Example.jpeg; Example.m4a] ++
   [PushMessage "C4af4980629"
      (first_message (Example.request [Example.jpeg; Example.m4a]));
    PushMessage "C4af4980629"
      (Line.ImageMessage
         (publicUrl Outage.world
            "line-to-email/9b1deb4d-3b7d-4bad-9bdd-2b0d7b3dcb6d-photo.jpg")
         (publicUrl Outage.world
            "line-to-email/9b1deb4d-3b7d-4bad-9bdd-2b0d7b3dcb6d-photo.jpg"))])%list
  /\ fst (email Outage.world (Example.request [Example.jpeg; Example.m4a])
            initial) =
     Throw (Rejected (ApiError "400 Bad Request"))
  /\ res (snd (email Outage.world
                 (Example.request [Example.jpeg; Example.m4a]) initial)) =
     Http.fresh.
Proof.
  assert (Hfront :
            Forall (fun m => exists u,
                        pushMessage Outage.world (groupId Outage.world) m =
                        inr u)
              [first_message (Example.request [Example.jpeg; Example.m4a])])
    by (repeat (constructor; [now exists tt |]); constructor).
  destruct (push_rejection_stops Outage.world
              (Example.request [Example.jpeg; Example.m4a])
              [Example.jpeg; Example.m4a]
              [first_message (Example.request [Example.jpeg; Example.m4a])]
              [Line.AudioMessage
                 (publicUrl Outage.world
                    "line-to-email/1b9d6bcd-bbfd-4b2d-9b5d-ab8dfbbd4bed-memo.m4a")
                 1500%float]
              (Line.ImageMessage
                 (publicUrl Outage.world
                    "line-to-email/9b1deb4d-3b7d-4bad-9bdd-2b0d7b3dcb6d-photo.jpg")
                 (publicUrl Outage.world
                    "line-to-email/9b1deb4d-3b7d-4bad-9bdd-2b0d7b3dcb6d-photo.jpg"))
              (ApiError "400 Bad Request") initial
              (snd (for_files Outage.world [Example.jpeg; Example.m4a]
                      [first_message
                         (Example.request [Example.jpeg; Example.m4a])]
                      initial))
              eq_refl eq_refl Hfront eq_refl) as (Hrun & Hcalls & Hres).
  split; [exact Hcalls |]. split; [| exact Hres].
  exact (f_equal fst Hrun).
Defined.

Lemma storage_failure_pushes_nothing_witness :
  fst (email Outage.world (Example.request [Example.jpeg; Example.pdf])
         initial) =
  Throw (Rejected (ApiError "403 Forbidden")) /\
  existsb is_push
    (calls (email Outage.world (Example.request [Example.jpeg; Example.pdf]))
       initial) = false /\
  res (snd (email Outage.world (Example.request [Example.jpeg; Example.pdf])
              initial)) =
  Http.fresh.
Proof.
  exact (storage_failure_pushes_nothing Outage.world
           (Example.request [Example.jpeg; Example.pdf])
           [Example.jpeg; Example.pdf]
           (Rejected (ApiError "403 Forbidden")) initial eq_refl eq_refl).
Defined.

Lemma recipients_of_ascii_witness :
  Config.toEmailArray (Some " desk@example.com, hana@example.com ") =
  ["desk@example.com"; "hana@example.com"].
Proof.
  exact (recipients_of_ascii (Some " desk@example.com, hana@example.com ")
           eq_refl).
Defined.
